(** * mcptube: the resolver, the entity store and the semantic index

    A shallow embedding of [mcptube/service.py], [mcptube/storage/sqlite.py],
    [mcptube/storage/vectorstore.py] and [mcptube/models.py].

    - Python [str] is modelled by [string], read as a sequence of code points
      below 256; the text methods the code calls ([lower], [strip],
      [isdigit], [in], [join], [int]) are in module [Py].
    - Python [float] is the primitive binary64 [float].
    - The [videos] table is a finite map from its primary key to the other
      columns; the Chroma collection is a finite map from fragment id to the
      stored document and metadata.
    - Service methods run in a state-and-exception monad over the service's
      collaborators; a raised exception keeps the state reached so far, as
      Python's mutation does. *)

From Stdlib Require Import PrimFloat Ascii.
From stdpp Require Import gmap strings list sorting pretty.

Set Default Proof Using "Type".

(** ** Python text *)

Module Py.

Definition ord (c : ascii) : N := Ascii.N_of_ascii c.

Definition between (lo hi : N) (c : ascii) : bool :=
  (lo <=? ord c)%N && (ord c <=? hi)%N.

(** [0] to [9]. *)
Definition is_decimal (c : ascii) : bool := between 48 57 c.

(** [str.isdigit] on one character: the decimal digits and the
    superscripts two, three and one (code points 178, 179, 185). *)
Definition is_digit (c : ascii) : bool :=
  is_decimal c || (ord c =? 178)%N || (ord c =? 179)%N || (ord c =? 185)%N.

(** [str.isspace] on one character: tab to carriage return, the four
    separators 28 to 31, space, next-line and no-break space. *)
Definition is_space (c : ascii) : bool :=
  between 9 13 c || between 28 32 c || (ord c =? 133)%N || (ord c =? 160)%N.

(** Upper-case letters: [A] to [Z], and 192 to 222 except the
    multiplication sign 215. *)
Definition is_upper (c : ascii) : bool :=
  between 65 90 c || (between 192 222 c && negb (ord c =? 215)%N).

Definition lower_char (c : ascii) : ascii :=
  if is_upper c then Ascii.ascii_of_N (ord c + 32) else c.

(** [s.lower()] *)
Fixpoint lower (s : string) : string :=
  match s with
  | EmptyString => EmptyString
  | String c s' => String (lower_char c) (lower s')
  end.

Fixpoint all_chars (p : ascii → bool) (s : string) : bool :=
  match s with
  | EmptyString => true
  | String c s' => p c && all_chars p s'
  end.

(** [s.isdigit()]: at least one character, and every character a digit. *)
Definition isdigit (s : string) : bool :=
  match s with
  | EmptyString => false
  | _ => all_chars is_digit s
  end.

Fixpoint lstrip (s : string) : string :=
  match s with
  | EmptyString => EmptyString
  | String c s' => if is_space c then lstrip s' else s
  end.

Fixpoint rstrip (s : string) : string :=
  match s with
  | EmptyString => EmptyString
  | String c s' =>
      match rstrip s' with
      | EmptyString => if is_space c then EmptyString else String c EmptyString
      | r => String c r
      end
  end.

(** [s.strip()] *)
Definition strip (s : string) : string := rstrip (lstrip s).

(** [q in s] on strings. *)
Fixpoint contains (q s : string) : bool :=
  String.prefix q s ||
  match s with
  | EmptyString => false
  | String _ s' => contains q s'
  end.

(** [sep.join(parts)] *)
Fixpoint join (sep : string) (parts : list string) : string :=
  match parts with
  | [] => ""
  | [p] => p
  | p :: rest => p +:+ sep +:+ join sep rest
  end.

Fixpoint decimal_value (acc : Z) (s : string) : option Z :=
  match s with
  | EmptyString => Some acc
  | String c s' =>
      if is_decimal c
      then decimal_value (10 * acc + (Z.of_N (ord c) - 48)) s'
      else None
  end.

(** The line feed. *)
Definition newline : string := String "010" "".

(** [f"{n}"] for a non-negative integer. *)
Definition str_of_nat (n : nat) : string := pretty n.

(** [list(dict.fromkeys(keys))]: a key that is already in the dict keeps
    its place, a new one goes to the end. *)
Definition fromkeys (keys : list string) : list string :=
  foldl (λ seen k, if bool_decide (k ∈ seen) then seen else seen ++ [k])
    [] keys.

End Py.

(** ** Exceptions *)

Inductive exn : Type :=
  | VideoNotFoundError (msg : string)
  | VideoAlreadyExistsError (msg : string)
  | AmbiguousVideoError (msg : string)
  | ExtractionError (msg : string)
  | LLMError (msg : string)
  | RuntimeError (msg : string)
  | ValueError (msg : string)
  | EngineError (msg : string).

Inductive result (A : Type) : Type :=
  | Ok (a : A)
  | Raise (e : exn).
Arguments Ok {A} a.
Arguments Raise {A} e.

(** [sys.int_max_str_digits] at its default: the most digits [int]
    converts. *)
Definition int_max_str_digits : Z := 4300.

(** [int(s)] at its call site in [resolve_video], where [s.isdigit()] has
    passed: the decimal value, or [ValueError] when a digit of [s] is not a
    decimal digit, or when [s] has more than [int_max_str_digits] digits,
    leading zeros counted. *)
Definition int (s : string) : result Z :=
  match s with
  | EmptyString => Raise (ValueError s)
  | _ =>
      if (int_max_str_digits <? Z.of_nat (String.length s))%Z then
        Raise (ValueError s)
      else
        match Py.decimal_value 0 s with
        | Some n => Ok n
        | None => Raise (ValueError s)
        end
  end.

(** ** models.py *)

(** A [datetime] is kept as its ISO-8601 text, the form [save] writes into
    the [added_at] column and [ORDER BY added_at] compares. *)
Definition datetime : Type := string.

Record Chapter : Type := {
  chapter_title : string;
  chapter_start : float
}.

Record TranscriptSegment : Type := {
  seg_start : float;
  seg_duration : float;
  seg_text : string
}.

(** The computed field [end]. *)
Definition seg_end (seg : TranscriptSegment) : float :=
  PrimFloat.add (seg_start seg) (seg_duration seg).

Record Video : Type := {
  video_id : string;
  title : string;
  description : string;
  channel : string;
  duration : float;
  thumbnail_url : string;
  chapters : list Chapter;
  transcript : list TranscriptSegment;
  tags : list string;
  added_at : datetime
}.

(** [video.tags = ts] *)
Definition set_tags (ts : list string) (v : Video) : Video :=
  {| video_id := video_id v; title := title v; description := description v;
     channel := channel v; duration := duration v;
     thumbnail_url := thumbnail_url v; chapters := chapters v;
     transcript := transcript v; tags := ts; added_at := added_at v |}.

(** ** storage/sqlite.py *)

Module SQLiteVideoRepository.

(** A row of [videos] without its primary key.  The three JSON columns
    hold the value that [json.loads] reads back from what [json.dumps]
    wrote. *)
Record Row : Type := {
  row_title : string;
  row_description : string;
  row_channel : string;
  row_duration : float;
  row_thumbnail_url : string;
  row_chapters : list Chapter;
  row_transcript : list TranscriptSegment;
  row_tags : list string;
  row_added_at : string
}.

(** The values bound to the [INSERT] of [save]. *)
Definition excluded (v : Video) : Row :=
  {| row_title := title v; row_description := description v;
     row_channel := channel v; row_duration := duration v;
     row_thumbnail_url := thumbnail_url v; row_chapters := chapters v;
     row_transcript := transcript v; row_tags := tags v;
     row_added_at := added_at v |}.

(** [ON CONFLICT(video_id) DO UPDATE SET ...]: every column listed in the
    statement is taken from [new]; [added_at] is not listed and stays. *)
Definition do_update (old new : Row) : Row :=
  {| row_title := row_title new; row_description := row_description new;
     row_channel := row_channel new; row_duration := row_duration new;
     row_thumbnail_url := row_thumbnail_url new;
     row_chapters := row_chapters new;
     row_transcript := row_transcript new; row_tags := row_tags new;
     row_added_at := row_added_at old |}.

Definition save (v : Video) (t : gmap string Row) : gmap string Row :=
  match t !! video_id v with
  | None => <[video_id v := excluded v]> t
  | Some old => <[video_id v := do_update old (excluded v)]> t
  end.

Definition _row_to_video (id : string) (row : Row)
    (include_transcript : bool) : Video :=
  {| video_id := id; title := row_title row;
     description := row_description row; channel := row_channel row;
     duration := row_duration row; thumbnail_url := row_thumbnail_url row;
     chapters := if include_transcript then row_chapters row else [];
     transcript := if include_transcript then row_transcript row else [];
     tags := row_tags row; added_at := row_added_at row |}.

Definition get (id : string) (t : gmap string Row) : option Video :=
  (λ row, _row_to_video id row true) <$> t !! id.

(** [ORDER BY added_at DESC]: the text of [x] is not below the text of
    [y].  Which of two rows with equal [added_at] comes first is left open
    by SQL; here the sort decides. *)
Definition added_at_desc (x y : string * Row) : Prop :=
  String.le (row_added_at y.2) (row_added_at x.2).

#[export] Instance added_at_desc_dec x y : Decision (added_at_desc x y).
Proof. unfold added_at_desc. apply _. Defined.

Definition list_all (t : gmap string Row) : list Video :=
  (λ kr : string * Row, _row_to_video kr.1 kr.2 false)
    <$> merge_sort added_at_desc (map_to_list t).


Definition delete (id : string) (t : gmap string Row) : gmap string Row :=
  base.delete id t.

Definition exists_ (id : string) (t : gmap string Row) : bool :=
  bool_decide (is_Some (t !! id)).

End SQLiteVideoRepository.

(** ** storage/vectorstore.py *)

(** The abstract [VectorStore] interface; a method returns the store it
    leaves behind and either its value or the exception it raised.  [search]
    ranks by embedding distance and is not modelled. *)
Class VectorStore (S : Type) : Type := {
  index_video : string → list TranscriptSegment → S → S * result nat;
  delete_video : string → S → S * result ()
}.

(** A single semantic search result; a lower [score] is a closer match. *)
Record SearchResult : Type := {
  result_video_id : string;
  result_text : string;
  result_start : float;
  result_end : float;
  result_score : float
}.

(** The [search] method of the interface, given the query, the optional
    [video_id] and [tags] and the [limit]; it reads the store. *)
Class VectorSearch (S : Type) : Type := {
  search : string → option string → option (list string) → Z → S
           → result (list SearchResult)
}.

(** The part of a Chroma collection that [ChromaVectorStore] relies on:
    records keyed by id, [add] and [delete(where=...)]. *)
Module chromadb.

Record Metadata : Type := {
  meta_video_id : string;
  meta_start : float;
  meta_end : float;
  meta_segment_index : nat
}.

Record Collection : Type := {
  records : gmap string (string * Metadata);
  (** the largest batch one [add] accepts *)
  max_batch_size : nat;
  (** engines that raise from [delete] when the filter selects nothing *)
  delete_raises_on_no_match : bool
}.

Definition set_records (m : gmap string (string * Metadata))
    (c : Collection) : Collection :=
  {| records := m; max_batch_size := max_batch_size c;
     delete_raises_on_no_match := delete_raises_on_no_match c |}.

(** A record whose id is already in the collection is ignored. *)
Definition add_one (m : gmap string (string * Metadata))
    (e : string * (string * Metadata)) : gmap string (string * Metadata) :=
  match m !! e.1 with
  | Some _ => m
  | None => <[e.1 := e.2]> m
  end.

(** [collection.add(documents=, metadatas=, ids=)]: rejects an empty
    batch, lists of unequal length, an id repeated within the batch and a
    batch above the ceiling. *)
Definition add (documents : list string) (metadatas : list Metadata)
    (ids : list string) (c : Collection) : result Collection :=
  if bool_decide (ids = []) then
    Raise (ValueError "Expected IDs to be a non-empty list")
  else if negb (bool_decide (length documents = length ids
                             ∧ length metadatas = length ids)) then
    Raise (ValueError "Unequal lengths")
  else if negb (bool_decide (NoDup ids)) then
    Raise (EngineError "Expected IDs to be unique")
  else if bool_decide (max_batch_size c < length ids) then
    Raise (ValueError "Batch size exceeds maximum batch size")
  else
    Ok (set_records
          (foldl add_one (records c) (zip ids (zip documents metadatas))) c).

Definition owned_by (video_id : string)
    (m : gmap string (string * Metadata)) : gmap string (string * Metadata) :=
  filter (λ kr, meta_video_id kr.2.2 = video_id) m.

(** [collection.delete(where={"video_id": video_id})] *)
Definition delete (video_id : string) (c : Collection) : result Collection :=
  if delete_raises_on_no_match c
     && bool_decide (size (owned_by video_id (records c)) = 0)
  then Raise (EngineError "nothing to delete")
  else
    Ok (set_records
          (filter (λ kr, meta_video_id kr.2.2 ≠ video_id) (records c)) c).

End chromadb.

Module ChromaVectorStore.
Import chromadb.

Definition _BATCH_SIZE : nat := 500.

(** Swallows whatever the engine raises. *)
Definition delete_video (video_id : string) (c : Collection) : Collection :=
  match chromadb.delete video_id c with
  | Ok c' => c'
  | Raise _ => c
  end.

(** [enumerate(segments)] *)
Definition enumerate {A} (l : list A) : list (nat * A) :=
  zip (seq 0 (length l)) l.

Definition metadata (video_id : string) (p : nat * TranscriptSegment)
    : Metadata :=
  {| meta_video_id := video_id; meta_start := seg_start p.2;
     meta_end := seg_end p.2; meta_segment_index := p.1 |}.

(** [f"{video_id}_{i}"] *)
Definition fragment_id (video_id : string) (i : nat) : string :=
  video_id +:+ "_" +:+ Py.str_of_nat i.

(** One turn of the loop over [enumerate(segments)], on the three lists
    [documents], [metadatas] and [ids]: a segment whose stripped text is
    empty is passed over (the [continue]). *)
Definition collect_step (video_id : string)
    (lists : list string * list Metadata * list string)
    (p : nat * TranscriptSegment)
    : list string * list Metadata * list string :=
  let '(documents, metadatas, ids) := lists in
  let text := Py.strip (seg_text p.2) in
  if decide (text = "") then lists
  else (documents ++ [text],
        metadatas ++ [metadata video_id p],
        ids ++ [fragment_id video_id p.1]).

Definition collect (video_id : string) (segments : list TranscriptSegment)
    : list string * list Metadata * list string :=
  foldl (collect_step video_id) ([], [], []) (enumerate segments).

(** [range(0, stop, step)] for a positive [step] *)
Definition range (stop step : nat) : list nat :=
  (λ k, k * step) <$> seq 0 ((stop + step - 1) / step).

(** [l[a:b]] for [a <= b] *)
Definition slice {A} (l : list A) (a b : nat) : list A :=
  take (b - a) (drop a l).

(** The loop over [range(0, len(documents), _BATCH_SIZE)], with the
    running [indexed]. *)
Fixpoint add_batches (starts : list nat) (documents : list string)
    (metadatas : list Metadata) (ids : list string)
    (c : Collection) (indexed : nat) : Collection * result nat :=
  match starts with
  | [] => (c, Ok indexed)
  | batch_start :: rest =>
      let batch_end := batch_start + _BATCH_SIZE in
      match chromadb.add (slice documents batch_start batch_end)
                         (slice metadatas batch_start batch_end)
                         (slice ids batch_start batch_end) c with
      | Raise e => (c, Raise e)
      | Ok c' =>
          add_batches rest documents metadatas ids c'
            (indexed + length (slice documents batch_start batch_end))
      end
  end.

Definition index_video (video_id : string)
    (segments : list TranscriptSegment) (c : Collection)
    : Collection * result nat :=
  match segments with
  | [] => (c, Ok 0)
  | _ =>
      let c := delete_video video_id c in
      let '(documents, metadatas, ids) := collect video_id segments in
      add_batches (range (length documents) _BATCH_SIZE)
        documents metadatas ids c 0
  end.

(** The segments that pass the loop, with their positions, and the text
    the loop stores for one of them. *)
Definition kept (segments : list TranscriptSegment)
    : list (nat * TranscriptSegment) :=
  filter (λ p, Py.strip (seg_text p.2) ≠ "") (enumerate segments).

Definition document (p : nat * TranscriptSegment) : string :=
  Py.strip (seg_text p.2).

(** What [index_video] hands to the engine for one kept segment, and for
    the whole list. *)
Definition entry (video_id : string) (p : nat * TranscriptSegment)
    : string * (string * Metadata) :=
  (fragment_id video_id p.1, (document p, metadata video_id p)).

Definition entries (video_id : string) (segments : list TranscriptSegment)
    : list (string * (string * Metadata)) :=
  entry video_id <$> kept segments.

(** Every record sits under the id built from its own metadata, which is
    how [index_video] stores it. *)
Definition well_keyed (c : Collection) : Prop :=
  map_Forall (λ k r, k = fragment_id (meta_video_id r.2)
                                     (meta_segment_index r.2))
             (records c).

(** A call on the store, and a history of calls replayed on a
    collection. *)
Inductive store_call : Type :=
  | IndexVideo (video_id : string) (segments : list TranscriptSegment)
  | DeleteVideo (video_id : string).

Definition replay_call (c : Collection) (call : store_call) : Collection :=
  match call with
  | IndexVideo video_id segments => (index_video video_id segments c).1
  | DeleteVideo video_id => delete_video video_id c
  end.

Definition replay (calls : list store_call) (c : Collection) : Collection :=
  foldl replay_call c calls.

(** One hit of [collection.query]: document, metadata and distance, the
    three lists that [search] zips. *)
Definition Hit : Type := string * Metadata * float.

Definition search_result (hit : Hit) : SearchResult :=
  let '(doc, meta, dist) := hit in
  {| result_video_id := meta_video_id meta; result_text := doc;
     result_start := meta_start meta; result_end := meta_end meta;
     result_score := dist |}.

(** [search]; [query] is the engine's
    [collection.query(query_texts=[q], n_results=, where=)] with its
    embedding and ranking, taken as given.  [if video_id:] is false for
    [None] and for the empty string. *)
Definition search
    (query : string → Z → option string → Collection → result (list Hit))
    (q : string) (video_id : option string) (tags : option (list string))
    (limit : Z) (c : Collection) : result (list SearchResult) :=
  let where_ :=
    match video_id with
    | Some v => if bool_decide (v = "") then None else Some v
    | None => None
    end in
  match query q limit where_ c with
  | Raise e => Raise e
  | Ok hits => Ok (search_result <$> hits)
  end.

End ChromaVectorStore.

#[export] Instance chroma_vector_store : VectorStore chromadb.Collection := {|
  index_video := ChromaVectorStore.index_video;
  delete_video := λ id c, (ChromaVectorStore.delete_video id c, Ok ())
|}.

Definition chroma_vector_search
    (query : string → Z → option string → chromadb.Collection
             → result (list ChromaVectorStore.Hit))
    : VectorSearch chromadb.Collection :=
  {| search := ChromaVectorStore.search query |}.

(** ** ingestion/youtube.py *)

(** What [YouTubeExtractor.extract] reads out of the downloader's answer. *)
Record Info : Type := {
  info_title : string;
  info_description : string;
  info_channel : string;
  info_duration : float;
  info_thumbnail : string;
  info_chapters : list Chapter;
  info_transcript : list TranscriptSegment
}.

From Stdlib Require FloatOps SpecFloat.

(** The json3 subtitle data, decoded:
    [{"events": [{"tStartMs": int, "dDurationMs": int,
                  "segs": [{"utf8": str}]}]}], any key possibly absent. *)
Module YouTubeExtractor.

Record Seg : Type := { utf8 : option string }.

Record Event : Type := {
  tStartMs : option Z;
  dDurationMs : option Z;
  segs : option (list Seg)
}.

(** The float nearest to an integer, ties to even, as the division
    converts its left operand.  (Integers beyond the float range, for
    which the conversion raises, are not modelled.) *)
Definition float_of_int (n : Z) : float :=
  FloatOps.SF2Prim
    (SpecFloat.binary_normalize FloatOps.prec FloatOps.emax n 0 false).

(** [ms / 1000.0] *)
Definition seconds (ms : Z) : float :=
  PrimFloat.div (float_of_int ms) (float_of_int 1000).

(** ["".join(s.get("utf8", "") for s in segs).strip()] *)
Definition event_text (ss : list Seg) : string :=
  Py.strip (Py.join "" ((λ s, default "" (utf8 s)) <$> ss)).

(** The body of the loop of [_parse_json3]: [None] where it continues. *)
Definition parse_event (event : Event) : option TranscriptSegment :=
  match segs event with
  | None | Some [] => None
  | Some ss =>
      let text := event_text ss in
      if bool_decide (text = "") || bool_decide (text = Py.newline) then None
      else
        Some {| seg_start := seconds (default 0%Z (tStartMs event));
                seg_duration := seconds (default 0%Z (dDurationMs event));
                seg_text := text |}
  end.

(** [_parse_json3]; [events] is [data.get("events", [])]. *)
Definition _parse_json3 (events : list Event) : list TranscriptSegment :=
  omap parse_event events.

End YouTubeExtractor.

(** ** report.py *)

(** The data a report is made of; how [ReportBuilder] fills it (prompt,
    completion, JSON decoding, frame files) is not modelled. *)
Module report.

Record FrameSelection : Type := {
  video_id : string;
  timestamp : float;
  reason : string;
  path : option string
}.

Record ReportSection : Type := {
  heading : string;
  content : string;
  frames : list FrameSelection
}.

Record Report : Type := {
  title : string;
  summary : string;
  sections : list ReportSection;
  key_takeaways : list string
}.

End report.

(** ** discovery.py *)

Module discovery.

Record DiscoveredVideo : Type := {
  video_id : string;
  title : string;
  channel : string;
  duration : float;
  description : string;
  thumbnail_url : string;
  cluster : string
}.

Definition set_cluster (name : string) (v : DiscoveredVideo)
    : DiscoveredVideo :=
  {| video_id := video_id v; title := title v; channel := channel v;
     duration := duration v; description := description v;
     thumbnail_url := thumbnail_url v; cluster := name |}.

(** [clusters] is a dict: cluster names in insertion order, each with its
    list of videos. *)
Record DiscoveryResult : Type := {
  topic : string;
  total_found : nat;
  clusters : list (string * list DiscoveredVideo)
}.

(** [d[k] = v] on a dict kept as its items in insertion order. *)
Fixpoint dict_set {A} (k : string) (v : A) (d : list (string * A))
    : list (string * A) :=
  match d with
  | [] => [(k, v)]
  | (k', v') :: d' =>
      if bool_decide (k' = k) then (k, v) :: d' else (k', v') :: dict_set k v d'
  end.

(** [{v.video_id: v for v in videos}]: the objects by identifier, a later
    video replacing an earlier one with the same identifier.  The values
    are the objects themselves, so this map is the store through which
    [_filter_and_cluster] mutates them, and an identifier is a reference
    into it. *)
Definition by_id (videos : list DiscoveredVideo)
    : gmap string DiscoveredVideo :=
  foldl (λ m v, <[video_id v := v]> m) ∅ videos.

(** The body of the inner loop: a known identifier has its object's
    [cluster] overwritten and a reference to the object appended. *)
Definition assign (cluster_name : string)
    (st : gmap string DiscoveredVideo * list string) (vid : string)
    : gmap string DiscoveredVideo * list string :=
  match st.1 !! vid with
  | Some v => (<[vid := set_cluster cluster_name v]> st.1, st.2 ++ [vid])
  | None => st
  end.

(** The body of the outer loop over the items of the decoded [clusters]
    object; the result's clusters hold references. *)
Definition cluster_step
    (st : gmap string DiscoveredVideo * list (string * list string))
    (item : string * list string)
    : gmap string DiscoveredVideo * list (string * list string) :=
  let '(store, cluster_videos) :=
    foldl (assign item.1) (st.1, []) item.2 in
  (store,
   match cluster_videos with
   | [] => st.2
   | _ :: _ => dict_set item.1 cluster_videos st.2
   end).

(** What a reader of the returned result sees: each reference read in
    the store as the loops left it. *)
Definition deref (store : gmap string DiscoveredVideo)
    (refs : list string) : list DiscoveredVideo :=
  omap (λ vid, store !! vid) refs.

(** The part of [_filter_and_cluster] after the completion has been
    decoded: [response] is the items of [data.get("clusters", {})]. *)
Definition cluster_videos (topic : string) (videos : list DiscoveredVideo)
    (response : list (string * list string)) : DiscoveryResult :=
  let '(store, refs) := foldl cluster_step (by_id videos, []) response in
  {| topic := topic; total_found := length videos;
     clusters := prod_map id (deref store) <$> refs |}.

(** The name under which a response lists an identifier last, if it lists
    it at all. *)
Fixpoint last_cluster (response : list (string * list string))
    (vid : string) : option string :=
  match response with
  | [] => None
  | item :: rest =>
      match last_cluster rest vid with
      | Some name => Some name
      | None => if bool_decide (vid ∈ item.2) then Some item.1 else None
      end
  end.

(** An object after the loops: its [cluster] overwritten with that name. *)
Definition relabel (response : list (string * list string)) (vid : string)
    (v : DiscoveredVideo) : DiscoveredVideo :=
  match last_cluster response vid with
  | Some name => set_cluster name v
  | None => v
  end.

(** [discover]; [_search_youtube] has produced [raw_results], and
    [decode] stands for prompt, completion and JSON decoding, which raise
    [LLMError]. *)
Definition discover
    (decode : string → list DiscoveredVideo
              → result (list (string * list string)))
    (topic : string) (raw_results : list DiscoveredVideo)
    : result DiscoveryResult :=
  match raw_results with
  | [] => Ok {| topic := topic; total_found := 0; clusters := [] |}
  | _ :: _ =>
      match decode topic raw_results with
      | Raise e => Raise e
      | Ok response =>
          let clustered := cluster_videos topic raw_results response in
          Ok {| topic := discovery.topic clustered;
                total_found := length raw_results;
                clusters := clusters clustered |}
      end
  end.

End discovery.

(** ** Sample data

    The library of three entities added in the order A (oldest), B, C
    (newest), an entity whose identifier is a digit string, and simple
    collaborators, for the examples that close the file. *)
Module Sample.
Import SQLiteVideoRepository chromadb.

Definition segment (text : string) : TranscriptSegment :=
  {| seg_start := 0; seg_duration := 5; seg_text := text |}.

Definition video (id title channel : string) (added_at : datetime) : Video :=
  {| video_id := id; title := title; description := ""; channel := channel;
     duration := 60; thumbnail_url := ""; chapters := [];
     transcript := [segment "hello"]; tags := ["old"];
     added_at := added_at |}.

Definition A : Video :=
  video "aaaaaaaaaaa" "Deep Learning Intro" "EduCh" "2025-01-01T00:00:00+00:00".
Definition B : Video :=
  video "bbbbbbbbbbb" "AI Debate" "Deep Channel" "2025-03-01T00:00:00+00:00".
Definition C : Video :=
  video "ccccccccccc" "Cooking Pasta" "FoodChannel" "2025-06-01T00:00:00+00:00".
(** An identifier made of digits, with a title that contains it. *)
Definition D : Video :=
  video "2" "Part 2" "EduCh" "2024-01-01T00:00:00+00:00".

Definition library : gmap string Row := save C (save B (save A ∅)).

(** A collection with a ceiling of 500 records per [add]. *)
Definition collection : Collection :=
  {| records := ∅; max_batch_size := 500;
     delete_raises_on_no_match := true |}.

(** A vector store that cannot be reached: both methods raise. *)
Definition unreachable : VectorStore () :=
  {| index_video := λ _ _ u, (u, Raise (EngineError "unreachable"));
     delete_video := λ _ u, (u, Raise (EngineError "unreachable")) |}.

Definition url_of (id : string) : string := "https://youtu.be/" +:+ id.

(** Accepts [https://youtu.be/] followed by the identifier. *)
Definition parse_video_id (url : string) : result string :=
  if String.prefix "https://youtu.be/" url
  then Ok (String.substring 17 (String.length url - 17) url)
  else Raise (ExtractionError
                ("Could not extract video ID from URL: " +:+ url)).

Definition _fetch_info (url : string) : result Info :=
  Ok {| info_title := "Fresh"; info_description := ""; info_channel := "New";
        info_duration := 60; info_thumbnail := ""; info_chapters := [];
        info_transcript := [segment "hello"; segment "world"] |}.

(** A classifier that fails on the title [Fresh] and on [AI Debate]. *)
Definition classify (title description channel : string)
    : result (list string) :=
  if bool_decide (title = "Fresh" ∨ title = "AI Debate")
  then Raise (LLMError "LLM request failed")
  else Ok ["AI"; "Tutorial"].


(** A downloader that fails. *)
Definition fetch_fails (url : string) : result Info :=
  Raise (ExtractionError "Failed to extract video info").


(** A collection whose engine takes one record per [add]. *)
Definition narrow : Collection :=
  {| records := ∅; max_batch_size := 1;
     delete_raises_on_no_match := false |}.

(** The collection after A has been indexed. *)
Definition indexed_A : Collection :=
  (ChromaVectorStore.index_video "aaaaaaaaaaa" [segment "old"] collection).1.

(** An engine that answers with the records that pass the filter, in the
    order of their ids and all at distance one half, and that rejects a
    non-positive [n_results]. *)
Definition engine (q : string) (n_results : Z) (where_ : option string)
    (c : Collection) : result (list ChromaVectorStore.Hit) :=
  if (n_results <=? 0)%Z then Raise (EngineError "n_results")
  else
    Ok (take (Z.to_nat n_results)
          ((λ kr, (kr.2.1, kr.2.2, 0.5%float))
             <$> map_to_list
                   (match where_ with
                    | Some v => owned_by v (records c)
                    | None => records c
                    end))).

Definition searcher : VectorSearch Collection := chroma_vector_search engine.

(** A store in which one fragment of A is followed by one of an
    identifier that the library does not hold. *)
Definition hit (id text : string) : SearchResult :=
  {| result_video_id := id; result_text := text; result_start := 7;
     result_end := 9; result_score := 0.5 |}.

Definition fixed_hits (hits : list SearchResult) : VectorSearch Collection :=
  {| search := λ _ _ _ _ _, Ok hits |}.

Definition extract_frame (id : string) (t : float) : result string :=
  Ok ("frames/" +:+ id +:+ ".jpg").

Definition generate_single (v : Video) (query : option string)
    : result report.Report :=
  Ok {| report.title := title v; report.summary := default "" query;
        report.sections := []; report.key_takeaways := [] |}.

Definition generate_multi (videos : list Video) (query : string)
    : result report.Report :=
  Ok {| report.title := query;
        report.summary := Py.join "," (video_id <$> videos);
        report.sections := []; report.key_takeaways := [] |}.

Definition to_html (r : report.Report) : string :=
  "<h1>" +:+ report.title r +:+ "</h1>".

Definition to_markdown (r : report.Report) : string :=
  "# " +:+ report.title r.

Definition discover (topic : string) : result discovery.DiscoveryResult :=
  Ok {| discovery.topic := topic; discovery.total_found := 0;
        discovery.clusters := [] |}.

(** Three search results, and a response that lists [x2] under two
    names, an identifier the search did not return, and a cluster of
    unknown identifiers only. *)
Definition found (id : string) : discovery.DiscoveredVideo :=
  {| discovery.video_id := id; discovery.title := "t";
     discovery.channel := "c"; discovery.duration := 60;
     discovery.description := ""; discovery.thumbnail_url := "";
     discovery.cluster := "" |}.

Definition raw_results : list discovery.DiscoveredVideo :=
  [found "x1"; found "x2"; found "x3"].

Definition decode (topic : string) (videos : list discovery.DiscoveredVideo)
    : result (list (string * list string)) :=
  Ok [("Tutorials", ["x1"; "x9"; "x2"]); ("Talks", ["x2"]);
      ("Unknown", ["zz"])].

(** A response that lists each identifier once. *)
Definition decode_once (topic : string)
    (videos : list discovery.DiscoveredVideo)
    : result (list (string * list string)) :=
  Ok [("Tutorials", ["x1"]); ("Talks", ["x2"])].

(** Subtitle events: a text in two pieces, an event of line feeds only,
    one without pieces, and a padded text. *)
Definition events : list YouTubeExtractor.Event :=
  [ {| YouTubeExtractor.tStartMs := Some 1500%Z;
       YouTubeExtractor.dDurationMs := Some 2000%Z;
       YouTubeExtractor.segs :=
         Some [ {| YouTubeExtractor.utf8 := Some "hello " |};
                {| YouTubeExtractor.utf8 := Some "world" |} ] |};
    {| YouTubeExtractor.tStartMs := Some 3500%Z;
       YouTubeExtractor.dDurationMs := None;
       YouTubeExtractor.segs :=
         Some [ {| YouTubeExtractor.utf8 := Some Py.newline |} ] |};
    {| YouTubeExtractor.tStartMs := Some 4000%Z;
       YouTubeExtractor.dDurationMs := Some 1000%Z;
       YouTubeExtractor.segs := None |};
    {| YouTubeExtractor.tStartMs := None;
       YouTubeExtractor.dDurationMs := Some 500%Z;
       YouTubeExtractor.segs :=
         Some [ {| YouTubeExtractor.utf8 := Some "  bye " |};
                {| YouTubeExtractor.utf8 := None |} ] |} ].

End Sample.

(** ** service.py *)

(** The calls a service method makes on its collaborators, in order.  The
    log is ghost state: no method reads it. *)
Inductive call : Type :=
  | RepoExists (id : string)
  | RepoSave (id : string)
  | RepoGet (id : string)
  | RepoListAll
  | RepoDelete (id : string)
  | ExtractorExtract (url : string)
  | VsIndexVideo (id : string)
  | VsDeleteVideo (id : string)
  | LlmClassify (title : string).

Section McpTubeService.
Import SQLiteVideoRepository.

Context {VS : Type} `{!VectorStore VS}.

(** [YouTubeExtractor.parse_video_id]; its regular expressions are not
    modelled, only the identifier it yields or the error it raises. *)
Variable parse_video_id : string → result string.
(** [_fetch_info] followed by [_extract_transcript] and
    [_extract_chapters]: the downloader. *)
Variable _fetch_info : string → result Info.
(** [datetime.now(timezone.utc)] when the [Video] is built. *)
Variable now : datetime.
(** [LLMClient.available] and [LLMClient.classify]. *)
Variable available : bool.
Variable classify : string → string → string → result (list string).

Record Service : Type := {
  _repo : gmap string Row;
  _vectorstore : option VS;
  calls : list call
}.

Definition M (A : Type) : Type := Service → Service * result A.

#[local] Instance M_ret : MRet M := λ A a s, (s, Ok a).
#[local] Instance M_bind : MBind M := λ A B f m s,
  match m s with
  | (s', Ok a) => f a s'
  | (s', Raise e) => (s', Raise e)
  end.

Definition raise {A} (e : exn) : M A := λ s, (s, Raise e).

Definition lift {A} (r : result A) : M A := λ s, (s, r).

Definition logged (c : call) (s : Service) : Service :=
  {| _repo := _repo s; _vectorstore := _vectorstore s;
     calls := calls s ++ [c] |}.

Definition set_repo (t : gmap string Row) (s : Service) : Service :=
  {| _repo := t; _vectorstore := _vectorstore s; calls := calls s |}.

Definition set_vectorstore (vs : VS) (s : Service) : Service :=
  {| _repo := _repo s; _vectorstore := Some vs; calls := calls s |}.

(** [self._repo.*] *)
Definition repo_exists (id : string) : M bool := λ s,
  (logged (RepoExists id) s, Ok (exists_ id (_repo s))).
Definition repo_save (v : Video) : M () := λ s,
  (logged (RepoSave (video_id v)) (set_repo (save v (_repo s)) s), Ok ()).
Definition repo_get (id : string) : M (option Video) := λ s,
  (logged (RepoGet id) s, Ok (get id (_repo s))).
Definition repo_list_all : M (list Video) := λ s,
  (logged RepoListAll s, Ok (list_all (_repo s))).
Definition repo_delete (id : string) : M () := λ s,
  (logged (RepoDelete id) (set_repo (delete id (_repo s)) s), Ok ()).

(** [self._vectorstore.*], on a configured store *)
Definition vectorstore_index_video (vs : VS) (id : string)
    (segments : list TranscriptSegment) : M nat := λ s,
  let '(vs', r) := index_video id segments vs in
  (logged (VsIndexVideo id) (set_vectorstore vs' s), r).
Definition vectorstore_delete_video (vs : VS) (id : string) : M () := λ s,
  let '(vs', r) := delete_video id vs in
  (logged (VsDeleteVideo id) (set_vectorstore vs' s), r).

(** [YouTubeExtractor.extract]: [tags] and [added_at] take their
    defaults. *)
Definition extract (url : string) : M Video := λ s,
  (logged (ExtractorExtract url) s,
   match parse_video_id url with
   | Raise e => Raise e
   | Ok id =>
       match _fetch_info url with
       | Raise e => Raise e
       | Ok info =>
           Ok {| video_id := id; title := info_title info;
                 description := info_description info;
                 channel := info_channel info;
                 duration := info_duration info;
                 thumbnail_url := info_thumbnail info;
                 chapters := info_chapters info;
                 transcript := info_transcript info;
                 tags := []; added_at := now |}
       end
   end).

Definition llm_classify (v : Video) : M (list string) := λ s,
  (logged (LlmClassify (title v)) s,
   classify (title v) (description v) (channel v)).

(** [try: body except LLMError as e: handler] *)
Definition try_except_LLMError {A} (body : M A) (handler : string → M A)
    : M A := λ s,
  match body s with
  | (s', Raise (LLMError msg)) => handler msg s'
  | r => r
  end.

(** [self._vectorstore] *)
Definition vectorstore : M (option VS) := λ s, (s, Ok (_vectorstore s)).

Definition add_video (url : string) : M Video :=
  id ← lift (parse_video_id url);
  dup ← repo_exists id;
  if dup : bool then
    raise (VideoAlreadyExistsError
             ("Video already in library: " +:+ id +:+ ". "
              +:+ "Use remove_video() first to re-ingest."))
  else
    video ← extract url;
    _ ← repo_save video;
    store ← vectorstore;
    _ ← match store, transcript video with
        | Some vs, _ :: _ =>
            indexed ← vectorstore_index_video vs (video_id video)
                        (transcript video);
            mret ()
        | _, _ => mret ()
        end;
    if available then
      try_except_LLMError
        (tags ← llm_classify video;
         _ ← repo_save (set_tags tags video);
         mret (set_tags tags video))
        (λ e, mret video)
    else mret video.

Definition get_info (id : string) : M Video :=
  video ← repo_get id;
  match video with
  | None => raise (VideoNotFoundError ("Video not found: " +:+ id))
  | Some v => mret v
  end.

Definition remove_video (id : string) : M () :=
  present ← repo_exists id;
  if negb present then
    raise (VideoNotFoundError ("Video not found: " +:+ id))
  else
    _ ← repo_delete id;
    store ← vectorstore;
    match store with
    | Some vs => vectorstore_delete_video vs id
    | None => mret ()
    end.

Definition classify_video (id : string) : M (list string) :=
  video ← get_info id;
  if negb available then
    raise (RuntimeError "Classification requires an LLM. Set an API key.")
  else
    tags ← llm_classify video;
    _ ← repo_save (set_tags tags video);
    mret tags.

(** The lines of the ambiguity message: [f"  {i+1}. {v.title}"]. *)
Definition match_lines (matches : list Video) : list string :=
  imap (λ i v, "  " +:+ Py.str_of_nat (i + 1) +:+ ". " +:+ title v) matches.

Definition is_match (q : string) (v : Video) : bool :=
  Py.contains q (Py.lower (title v)) || Py.contains q (Py.lower (channel v)).

(** Returns what [self._repo.get] returns on the two paths that end in
    it, hence the [option]. *)
Definition resolve_video (query : string) : M (option Video) :=
  video ← repo_get query;
  match video with
  | Some v => mret (Some v)
  | None =>
      if Py.isdigit query then
        videos ← repo_list_all;
        n ← lift (int query);
        let idx := (n - 1)%Z in
        if bool_decide (0 ≤ idx < Z.of_nat (length videos))%Z then
          match videos !! Z.to_nat idx with
          | Some v => repo_get (video_id v)
          | None => mret None
          end
        else
          raise (VideoNotFoundError
                   ("Index " +:+ query +:+ " out of range. Library has "
                    +:+ Py.str_of_nat (length videos) +:+ " video(s)."))
      else
        videos ← repo_list_all;
        let q := Py.lower query in
        let matches := filter (λ v, is_match q v) videos in
        match matches with
        | [m] => repo_get (video_id m)
        | _ :: _ :: _ =>
            raise (AmbiguousVideoError
                     ("Multiple videos match '" +:+ query +:+ "':"
                      +:+ Py.newline
                      +:+ Py.join Py.newline (match_lines matches)))
        | [] => raise (VideoNotFoundError ("No video matching: " +:+ query))
        end
  end.

(** The indexing step of [add_video] runs only with a configured store
    and a non-empty transcript; this says it does not raise. *)
Definition indexing_succeeds (id : string) (segments : list TranscriptSegment)
    (s : Service) : Prop :=
  match _vectorstore s, segments with
  | Some vs, _ :: _ => ∃ n, (index_video id segments vs).2 = Ok n
  | _, _ => True
  end.

(** The state after a run of logged calls. *)
Definition logged_all (cs : list call) (s : Service) : Service :=
  foldl (λ s c, logged c s) s cs.

(** *** Search, frames, reports and discovery

    The collaborators of these methods are taken as given: the store's
    [search], [FrameExtractor.extract_frame] (a path or an error),
    [ReportBuilder.generate_single], [generate_multi], [to_html] and
    [to_markdown], and [VideoDiscovery.discover].  Their calls are not
    entered in the log. *)
Section queries.

Context {vector_search : VectorSearch VS}.
Variable extract_frame : string → float → result string.
Variable generate_single : Video → option string → result report.Report.
Variable generate_multi : list Video → string → result report.Report.
Variable to_html : report.Report → string.
Variable to_markdown : report.Report → string.
Variable discover : string → result discovery.DiscoveryResult.

Definition list_videos : M (list Video) := repo_list_all.

(** [McpTubeService.search] *)
Definition service_search (query : string) (id : option string)
    (tags : option (list string)) (limit : Z) : M (list SearchResult) :=
  store ← vectorstore;
  match store with
  | None => raise (RuntimeError "Semantic search requires a vector store.")
  | Some vs => lift (search query id tags limit vs)
  end.

Definition get_frame (id : string) (timestamp : float) : M string :=
  present ← repo_exists id;
  if negb present then
    raise (VideoNotFoundError ("Video not found: " +:+ id))
  else lift (extract_frame id timestamp).

(** The dict that [get_frame_by_query] returns. *)
Record FrameMatch : Type := {
  match_path : string;
  match_start : float;
  match_end : float;
  match_text : string;
  match_score : float
}.

Definition get_frame_by_query (id query : string) : M FrameMatch :=
  present ← repo_exists id;
  if negb present then
    raise (VideoNotFoundError ("Video not found: " +:+ id))
  else
    store ← vectorstore;
    match store with
    | None => raise (RuntimeError "Frame-by-query requires a vector store.")
    | Some vs =>
        results ← lift (search query (Some id) None 1 vs);
        match results with
        | [] =>
            raise (VideoNotFoundError
                     ("No transcript match for query: " +:+ query))
        | best :: _ =>
            frame_path ← lift (extract_frame id (result_start best));
            mret {| match_path := frame_path;
                    match_start := result_start best;
                    match_end := result_end best;
                    match_text := result_text best;
                    match_score := result_score best |}
        end
    end.

(** [to_html(report) if fmt == "html" else to_markdown(report)] *)
Definition render (fmt : string) (r : report.Report) : string :=
  if bool_decide (fmt = "html") then to_html r else to_markdown r.

(** [self._report_builder] and [self._discovery] are set by [__init__]
    exactly when the LLM is available. *)
Definition generate_report (id : string) (query : option string)
    (fmt : string) : M (report.Report * string) :=
  if negb available then
    raise (RuntimeError "Report generation requires an LLM. Set an API key.")
  else
    video ← get_info id;
    r ← lift (generate_single video query);
    mret (r, render fmt r).

(** [[self.get_info(vid) for vid in video_ids]] *)
Fixpoint get_infos (video_ids : list string) : M (list Video) :=
  match video_ids with
  | [] => mret []
  | id :: rest =>
      video ← get_info id;
      videos ← get_infos rest;
      mret (video :: videos)
  end.

Definition generate_report_from_query (query : string)
    (tags : option (list string)) (fmt : string)
    : M (report.Report * string) :=
  if negb available then
    raise (RuntimeError "Report generation requires an LLM. Set an API key.")
  else
    store ← vectorstore;
    match store with
    | None => raise (RuntimeError "Query-based reports require a vector store.")
    | Some vs =>
        results ← lift (search query None tags 20 vs);
        match results with
        | [] => raise (VideoNotFoundError
                         ("No matching content for: " +:+ query))
        | _ :: _ =>
            let video_ids := Py.fromkeys (result_video_id <$> results) in
            videos ← get_infos video_ids;
            r ← lift (generate_multi videos query);
            mret (r, render fmt r)
        end
    end.

Definition discover_videos (topic : string) : M discovery.DiscoveryResult :=
  if negb available then
    raise (RuntimeError "Discovery requires an LLM. Set an API key.")
  else lift (discover topic).

Definition synthesize (video_ids : list string) (topic fmt : string)
    : M (report.Report * string) :=
  if negb available then
    raise (RuntimeError "Synthesis requires an LLM. Set an API key.")
  else
    videos ← get_infos video_ids;
    r ← lift (generate_multi videos topic);
    mret (r, render fmt r).

End queries.


(** * Properties *)

(** ** Text *)

Lemma app_cons (c : ascii) (s b : string) :
String c s +:+ b = String c (s +:+ b).
Proof. reflexivity. Qed.

Lemma app_empty (b : string) : "" +:+ b = b.
Proof. reflexivity. Qed.





Lemma all_chars_app (p : ascii → bool) (s1 s2 : string) :
Py.all_chars p (s1 +:+ s2) = Py.all_chars p s1 && Py.all_chars p s2.
Proof.
induction s1 as [|c s1 IH]; [done|].
rewrite app_cons. simpl. by rewrite IH, andb_assoc.
Qed.

Lemma pretty_N_char_decimal (x : N) : Py.is_decimal (pretty_N_char x) = true.
Proof. unfold pretty_N_char. by repeat case_match. Qed.

Lemma pretty_N_go_decimal (x : N) (s : string) :
Py.all_chars Py.is_decimal s = true →
Py.all_chars Py.is_decimal (pretty_N_go x s) = true.
Proof.
revert s. induction (N.lt_wf_0 x) as [x _ IH]; intros s Hs.
destruct (decide (x = 0)%N) as [->|Hx].
- by rewrite pretty_N_go_0.
- rewrite pretty_N_go_step by lia. apply IH.
  + apply N.div_lt; lia.
  + simpl. by rewrite pretty_N_char_decimal.
Qed.

(** A printed number holds decimal digits only. *)
Lemma str_of_nat_decimal (n : nat) :
Py.all_chars Py.is_decimal (Py.str_of_nat n) = true.
Proof.
unfold Py.str_of_nat, pretty, pretty_nat, pretty, pretty_N.
case_decide; [done|]. by apply pretty_N_go_decimal.
Qed.

Lemma decimal_no_sep (d a b : string) :
Py.all_chars Py.is_decimal d = true → d ≠ a +:+ "_" +:+ b.
Proof.
intros Hd ->. rewrite all_chars_app, app_cons in Hd.
simpl in Hd. by rewrite andb_false_r in Hd.
Qed.

Lemma split_at_last_sep (s1 s2 d1 d2 : string) :
Py.all_chars Py.is_decimal d1 = true →
Py.all_chars Py.is_decimal d2 = true →
s1 +:+ "_" +:+ d1 = s2 +:+ "_" +:+ d2 → s1 = s2 ∧ d1 = d2.
Proof.
intros H1 H2. revert s2.
induction s1 as [|c s1 IH]; intros [|c' s2] Heq;
  rewrite ?app_cons, ?app_empty in Heq.
- by simplify_eq.
- simplify_eq. by destruct (decimal_no_sep _ s2 d2 H1).
- simplify_eq. by destruct (decimal_no_sep _ s1 d1 H2).
- simplify_eq. destruct (IH s2) as [-> ->]; done.
Qed.

(** Fragment ids determine the video and the position they were built
  from. *)
Lemma fragment_id_inj (v1 v2 : string) (i1 i2 : nat) :
ChromaVectorStore.fragment_id v1 i1 = ChromaVectorStore.fragment_id v2 i2 →
v1 = v2 ∧ i1 = i2.
Proof.
unfold ChromaVectorStore.fragment_id. intros Heq.
apply split_at_last_sep in Heq as [-> Hd]; auto using str_of_nat_decimal.
split; [done|]. unfold Py.str_of_nat in Hd. by apply (inj pretty) in Hd.
Qed.





Lemma pretty_N_char_value (d : N) :
  (d < 10)%N → (Z.of_N (Py.ord (pretty_N_char d)) - 48)%Z = Z.of_N d.
Proof.
  intros Hd.
  assert (d = 0 ∨ d = 1 ∨ d = 2 ∨ d = 3 ∨ d = 4 ∨ d = 5 ∨ d = 6 ∨ d = 7
          ∨ d = 8 ∨ d = 9)%N as Hcases by lia.
  by repeat destruct Hcases as [->|Hcases]; [..|subst d].
Qed.

Lemma decimal_value_pretty_N_go (x : N) (s : string) :
  ∃ p : Z, ∀ acc : Z,
    Py.decimal_value acc (pretty_N_go x s)
    = Py.decimal_value (acc * p + Z.of_N x) s.
Proof.
  revert s. induction (N.lt_wf_0 x) as [x _ IH]; intros s.
  destruct (decide (x = 0)%N) as [->|Hx].
  - exists 1%Z. intros acc. rewrite pretty_N_go_0. f_equal. lia.
  - rewrite pretty_N_go_step by lia.
    destruct (IH (x `div` 10)%N ltac:(apply N.div_lt; lia)
                (String (pretty_N_char (x `mod` 10)) s)) as [p Hp].
    exists (10 * p)%Z. intros acc. rewrite Hp. simpl.
    rewrite pretty_N_char_decimal.
    rewrite pretty_N_char_value by (apply N.mod_lt; lia).
    f_equal. pose proof (N.div_mod x 10 ltac:(lia)). lia.
Qed.

(** [int] reads back what the decimal printing of a number wrote, as
    long as that is no more digits than it converts. *)
Lemma int_str_of_nat (n : nat) :
  (Z.of_nat (String.length (Py.str_of_nat n)) ≤ int_max_str_digits)%Z →
  int (Py.str_of_nat n) = Ok (Z.of_nat n).
Proof.
  unfold Py.str_of_nat, pretty, pretty_nat, pretty, pretty_N.
  case_decide as Hn.
  - intros _. by replace n with 0 by lia.
  - intros Hlen.
    destruct (decimal_value_pretty_N_go (N.of_nat n) "") as [p Hp].
    unfold int. specialize (Hp 0%Z). simpl in Hp.
    destruct (pretty_N_go (N.of_nat n) "") as [|c s] eqn:Hs.
    + simpl in Hp. simplify_eq. lia.
    + rewrite (proj2 (Z.ltb_ge _ _) Hlen), Hp. f_equal. lia.
Qed.

Example strip_example : Py.strip "  two words  " = "two words".
Proof. reflexivity. Qed.

Example strip_blank : Py.strip (String "009" (String " " Py.newline)) = "".
Proof. reflexivity. Qed.

Example lower_example : Py.lower "Deep Channel" = "deep channel".
Proof. reflexivity. Qed.

Example contains_example :
  Py.contains "deep" (Py.lower "AI Debate") = false
  ∧ Py.contains "deep" (Py.lower "Deep Channel") = true
  ∧ Py.contains "" "anything" = true.
Proof. done. Qed.

Example isdigit_examples :
  Py.isdigit "007" = true ∧ Py.isdigit "" = false ∧ Py.isdigit "12a" = false
  ∧ int "007" = Ok 7%Z.
Proof. done. Qed.

(** Superscript two is a digit for [isdigit] and no decimal digit for
    [int]. *)
Example isdigit_superscript :
  Py.isdigit (String "178" "") = true
  ∧ int (String "178" "") = Raise (ValueError (String "178" "")).
Proof. done. Qed.

Example join_example :
  Py.join Py.newline ["  1. a"; "  2. b"]
  = "  1. a" +:+ Py.newline +:+ "  2. b".
Proof. reflexivity. Qed.

(** ** The entity store *)

Section repository.
Import SQLiteVideoRepository.
Implicit Types (t : gmap string Row) (v m : Video) (id : string).

#[local] Instance added_at_desc_trans : Transitive added_at_desc.
Proof. intros x y z Hxy Hyz. unfold added_at_desc in *. by etrans. Qed.

#[local] Instance added_at_desc_total : Total added_at_desc.
Proof. intros x y. unfold added_at_desc. apply (total String.le). Qed.

Lemma list_all_Permutation t :
  list_all t ≡ₚ (λ kr, _row_to_video kr.1 kr.2 false) <$> map_to_list t.
Proof. unfold list_all. by rewrite merge_sort_Permutation. Qed.

Lemma length_list_all t : length (list_all t) = size t.
Proof.
  by rewrite list_all_Permutation, length_fmap, length_map_to_list.
Qed.


Lemma elem_of_list_all t m :
  m ∈ list_all t ↔
  ∃ id row, t !! id = Some row ∧ m = _row_to_video id row false.
Proof.
  rewrite list_all_Permutation, list_elem_of_fmap. split.
  - intros ([id row] & -> & Hin%elem_of_map_to_list). eauto.
  - intros (id & row & Hrow & ->). exists (id, row).
    by rewrite elem_of_map_to_list.
Qed.

(** A listed video is the metadata of a stored row, and [get] on its
    identifier gives that row in full. *)
Lemma get_listed t m :
  m ∈ list_all t →
  ∃ row, t !! video_id m = Some row
         ∧ m = _row_to_video (video_id m) row false
         ∧ get (video_id m) t = Some (_row_to_video (video_id m) row true).
Proof.
  intros (id & row & Hrow & ->)%elem_of_list_all. exists row. simpl.
  unfold get. by rewrite Hrow.
Qed.

Lemma save_lookup_other v t id :
  id ≠ video_id v → save v t !! id = t !! id.
Proof.
  intros Hne. unfold save.
  by destruct (t !! video_id v); rewrite lookup_insert_ne.
Qed.

(** No [save] changes the [added_at] of a stored row. *)
Lemma save_keeps_added_at v t id old :
  t !! id = Some old →
  row_added_at <$> save v t !! id = Some (row_added_at old).
Proof.
  intros Hold. destruct (decide (id = video_id v)) as [->|Hne].
  - unfold save. rewrite Hold. by rewrite lookup_insert_eq.
  - by rewrite save_lookup_other, Hold.
Qed.

Lemma saves_keep_added_at (vs : list Video) t id old :
  t !! id = Some old →
  row_added_at <$> foldl (λ t v, save v t) t vs !! id
  = Some (row_added_at old).
Proof.
  revert t old. induction vs as [|v vs IH]; intros t old Hold; simpl.
  - by rewrite Hold.
  - pose proof (save_keeps_added_at v t id old Hold) as Hs.
    destruct (save v t !! id) as [old'|] eqn:Hold'; [|done].
    simplify_eq/=. rewrite (IH _ old' Hold'). by f_equal.
Qed.

End repository.

(** ** The resolver *)

Section resolver.
Import SQLiteVideoRepository.

Ltac run :=
  unfold mbind, M_bind, mret, M_ret, lift, raise, repo_get, repo_list_all;
  simpl.

(** C4: for a stored identifier, [resolve_video] returns the stored
    entity from the exact-identifier tier, whatever the identifier looks
    like (all digits, part of a title); the one repository call it makes
    is [get] on the identifier, so no later tier is consulted. *)
Theorem C4_exact_identifier_first (id : string) (s : Service) (row : Row) :
  _repo s !! id = Some row →
  resolve_video id s
  = (logged (RepoGet id) s, Ok (Some (_row_to_video id row true))).
Proof.
  intros Hrow. unfold resolve_video. run. unfold get. by rewrite Hrow.
Qed.

Lemma resolve_video_tier2 (q : string) (s : Service) (n : Z) :
  _repo s !! q = None → Py.isdigit q = true → int q = Ok n →
  resolve_video q s
  = let s' := logged RepoListAll (logged (RepoGet q) s) in
    let videos := list_all (_repo s) in
    if bool_decide (0 ≤ n - 1 < Z.of_nat (length videos))%Z then
      match videos !! Z.to_nat (n - 1) with
      | Some v => (logged (RepoGet (video_id v)) s',
                   Ok (get (video_id v) (_repo s)))
      | None => (s', Ok None)
      end
    else
      (s', Raise (VideoNotFoundError
                    ("Index " +:+ q +:+ " out of range. Library has "
                     +:+ Py.str_of_nat (length videos) +:+ " video(s)."))).
Proof.
  intros Hq Hdig Hint. unfold resolve_video. run. unfold get at 1.
  rewrite Hq, Hdig, Hint. simpl.
  case_bool_decide; [|done].
  destruct (list_all (_repo s) !! Z.to_nat (n - 1)); reflexivity.
Qed.


Lemma resolve_video_tier3 (q : string) (s : Service) :
  _repo s !! q = None → Py.isdigit q = false →
  resolve_video q s
  = let s' := logged RepoListAll (logged (RepoGet q) s) in
    let matches :=
      filter (λ v, is_match (Py.lower q) v) (list_all (_repo s)) in
    match matches with
    | [] => (s', Raise (VideoNotFoundError ("No video matching: " +:+ q)))
    | [m] => (logged (RepoGet (video_id m)) s',
              Ok (get (video_id m) (_repo s)))
    | _ :: _ :: _ =>
        (s', Raise (AmbiguousVideoError
                      ("Multiple videos match '" +:+ q +:+ "':"
                       +:+ Py.newline
                       +:+ Py.join Py.newline (match_lines matches))))
    end.
Proof.
  intros Hq Hdig. unfold resolve_video. run. unfold get at 1.
  rewrite Hq, Hdig. simpl.
  destruct (filter _ _) as [|m [|m' ms]]; reflexivity.
Qed.



End resolver.

Section upsert.
Import SQLiteVideoRepository.

(** C9: saving a record whose identifier is already stored overwrites
    title, description, channel, duration, thumbnail, chapters,
    transcript and tags with the new values and keeps the stored
    [added_at], whatever [added_at] the saved record carries; it touches
    no other row; and after any further saves the stored [added_at] of
    that identifier is still the one it had, which is the one its first
    save gave it. *)
Theorem C9_save_keeps_added_at (v : Video) (t : gmap string Row) (old : Row) :
  t !! video_id v = Some old →
  get (video_id v) (save v t)
  = Some {| video_id := video_id v; title := title v;
            description := description v; channel := channel v;
            duration := duration v; thumbnail_url := thumbnail_url v;
            chapters := chapters v; transcript := transcript v;
            tags := tags v; added_at := row_added_at old |}
  ∧ (∀ id, id ≠ video_id v → save v t !! id = t !! id)
  ∧ (∀ later : list Video,
       row_added_at <$> foldl (λ t v, save v t) (save v t) later !! video_id v
       = Some (row_added_at old))
  ∧ (∀ (first : Video) (t0 : gmap string Row) (later : list Video),
       t0 !! video_id first = None →
       row_added_at <$> foldl (λ t v, save v t) (save first t0) later
                          !! video_id first
       = Some (added_at first)).
Proof.
  intros Hold. split_and!.
  - unfold get, save. rewrite Hold. by rewrite lookup_insert_eq.
  - intros id Hne. by apply save_lookup_other.
  - intros later.
    pose proof (save_keeps_added_at v t _ old Hold) as Hs.
    destruct (save v t !! video_id v) as [old'|] eqn:Hold'; [|done].
    simplify_eq/=. rewrite (saves_keep_added_at later _ _ old' Hold').
    by f_equal.
  - intros first t0 later Hnew.
    rewrite (saves_keep_added_at later _ _ (excluded first)); [done|].
    unfold save. rewrite Hnew. by rewrite lookup_insert_eq.
Qed.

End upsert.

(** ** The orchestration service *)

Section orchestration.
Import SQLiteVideoRepository.

Ltac run :=
  unfold mbind, M_bind, mret, M_ret, lift, raise, vectorstore,
    repo_get, repo_list_all, repo_exists, repo_delete, repo_save,
    vectorstore_delete_video, vectorstore_index_video, extract,
    llm_classify, try_except_LLMError;
  simpl.

Lemma exists_Some (id : string) (t : gmap string Row) (row : Row) :
  t !! id = Some row → exists_ id t = true.
Proof. intros Hrow. unfold exists_. rewrite Hrow. by apply bool_decide_true. Qed.

Lemma exists_None (id : string) (t : gmap string Row) :
  t !! id = None → exists_ id t = false.
Proof.
  intros Hrow. unfold exists_. rewrite Hrow.
  apply bool_decide_false. by intros [??].
Qed.

(** C6: when the identifier of the URL is already stored, [add_video]
    raises [VideoAlreadyExistsError] right after the existence check: the
    store and the index are as before, and the extractor has not been
    called. *)
Theorem C6_duplicate_add_rejected (url id : string) (s : Service) (row : Row) :
  parse_video_id url = Ok id → _repo s !! id = Some row →
  ∃ s',
    add_video url s
    = (s', Raise (VideoAlreadyExistsError
                    ("Video already in library: " +:+ id
                     +:+ ". Use remove_video() first to re-ingest.")))
    ∧ _repo s' = _repo s
    ∧ _vectorstore s' = _vectorstore s
    ∧ calls s' = calls s ++ [RepoExists id].
Proof.
  intros Hid Hrow. exists (logged (RepoExists id) s).
  unfold add_video. run. rewrite Hid. simpl.
  by rewrite (exists_Some _ _ _ Hrow).
Qed.

(** C5: [remove_video] on an absent identifier raises
    [VideoNotFoundError] and leaves store and index as they were.  On a
    stored identifier it deletes the record first and only then calls the
    index purge; whatever the purge does, return or raise, the store no
    longer holds the identifier. *)
Theorem C5_remove_video (id : string) (s : Service) :
  (_repo s !! id = None →
     ∃ s',
       remove_video id s
       = (s', Raise (VideoNotFoundError ("Video not found: " +:+ id)))
       ∧ _repo s' = _repo s
       ∧ _vectorstore s' = _vectorstore s
       ∧ calls s' = calls s ++ [RepoExists id])
  ∧ (is_Some (_repo s !! id) →
       ∃ s' r,
         remove_video id s = (s', r)
         ∧ _repo s' = delete id (_repo s)
         ∧ _repo s' !! id = None
         ∧ match _vectorstore s with
           | None =>
               r = Ok () ∧ _vectorstore s' = None
               ∧ calls s' = calls s ++ [RepoExists id; RepoDelete id]
           | Some vs =>
               r = (delete_video id vs).2
               ∧ _vectorstore s' = Some (delete_video id vs).1
               ∧ calls s' = calls s ++ [RepoExists id; RepoDelete id;
                                        VsDeleteVideo id]
           end).
Proof.
  split.
  - intros Hrow. exists (logged (RepoExists id) s).
    unfold remove_video. run. by rewrite (exists_None _ _ Hrow).
  - intros [row Hrow]. unfold remove_video. run.
    rewrite (exists_Some _ _ _ Hrow). simpl.
    destruct (_vectorstore s) as [vs|] eqn:Hvs.
    + destruct (delete_video id vs) as [vs' r] eqn:Hdel.
      eexists _, _. split; [reflexivity|]. simpl.
      unfold delete. rewrite lookup_delete_eq, <-!app_assoc. done.
    + eexists _, _. split; [reflexivity|]. simpl.
      unfold delete. rewrite lookup_delete_eq, Hvs, <-!app_assoc. done.
Qed.

(** C8: when [classify] raises [LLMError] during [add_video], the add
    still returns the entity that [extract] built, with no tags, and that
    entity is what the store holds.  The same failure during
    [classify_video] is raised to the caller and the store is not written.
    When [classify_video] succeeds, the stored tags are exactly the
    returned ones, whatever tags were stored before; every other field,
    [added_at] included, is as before. *)
Theorem C8_classification_failure_policy :
  (∀ url id s info msg,
     parse_video_id url = Ok id → _repo s !! id = None →
     _fetch_info url = Ok info → available = true →
     indexing_succeeds id (info_transcript info) s →
     classify (info_title info) (info_description info) (info_channel info)
     = Raise (LLMError msg) →
     let video :=
       {| video_id := id; title := info_title info;
          description := info_description info;
          channel := info_channel info; duration := info_duration info;
          thumbnail_url := info_thumbnail info;
          chapters := info_chapters info;
          transcript := info_transcript info; tags := [];
          added_at := now |} in
     ∃ s',
       add_video url s = (s', Ok video)
       ∧ get id (_repo s') = Some video
       ∧ LlmClassify (info_title info) ∈ calls s')
  ∧ (∀ id s row e,
       _repo s !! id = Some row → available = true →
       classify (row_title row) (row_description row) (row_channel row)
       = Raise e →
       ∃ s',
         classify_video id s = (s', Raise e) ∧ _repo s' = _repo s)
  ∧ (∀ id s row ts,
       _repo s !! id = Some row → available = true →
       classify (row_title row) (row_description row) (row_channel row)
       = Ok ts →
       ∃ s',
         classify_video id s = (s', Ok ts)
         ∧ get id (_repo s')
           = Some (set_tags ts (_row_to_video id row true))).
Proof.
  split_and!.
  - intros url id s info msg Hid Hrow Hinfo Hav Hidx Hcl video.
    unfold add_video. run. rewrite Hid. simpl.
    rewrite (exists_None _ _ Hrow), Hinfo. simpl.
    unfold indexing_succeeds in Hidx. rewrite Hav.
    assert (get id (save video (_repo s)) = Some video) as Hget.
    { unfold get, save. simpl. rewrite Hrow. by rewrite lookup_insert_eq. }
    destruct (_vectorstore s) as [vs|];
      [destruct (info_transcript info) eqn:Ht|].
    + simpl. rewrite Hcl. eexists. split; [reflexivity|]. simpl.
      split; [done|]. set_solver.
    + simpl. destruct (index_video _ _ vs) as [vs' r]. simpl in *.
      destruct Hidx as [n ->]. simpl. rewrite Hcl.
      eexists. split; [reflexivity|]. simpl. split; [done|]. set_solver.
    + simpl. rewrite Hcl. eexists. split; [reflexivity|]. simpl.
      split; [done|]. set_solver.
  - intros id s row e Hrow Hav Hcl.
    unfold classify_video, get_info. run. unfold get. rewrite Hrow. simpl.
    rewrite Hav. simpl. run. rewrite Hcl. by eexists.
  - intros id s row ts Hrow Hav Hcl.
    unfold classify_video, get_info. run. unfold get. rewrite Hrow. simpl.
    rewrite Hav. simpl. run. rewrite Hcl. eexists. split; [reflexivity|].
    simpl. unfold save. simpl. rewrite Hrow. by rewrite lookup_insert_eq.
Qed.

End orchestration.

(** ** The semantic index *)

Section semantic_index.
Import chromadb ChromaVectorStore.
Implicit Types (c : Collection) (m : gmap string (string * Metadata)).
Implicit Types (l : list (nat * TranscriptSegment)).

Lemma zip3_fmap {A B C D} (f : A → B) (g : A → C) (h : A → D) (l : list A) :
  zip (f <$> l) (zip (g <$> l) (h <$> l)) = (λ x, (f x, (g x, h x))) <$> l.
Proof. induction l as [|x l IH]; csimpl; [done|]. by rewrite IH. Qed.

Lemma slice_fmap {A B} (f : A → B) (l : list A) (a b : nat) :
  slice (f <$> l) a b = f <$> slice l a b.
Proof. unfold slice. by rewrite fmap_take, fmap_drop. Qed.

Lemma set_records_id c : set_records (records c) c = c.
Proof. by destruct c. Qed.

(** One [add] of a non-empty batch within the ceiling and without
    repeated ids stores the batch. *)
Lemma add_entries (vid : string) l c :
  l ≠ [] → length l ≤ max_batch_size c →
  NoDup ((λ p, fragment_id vid p.1) <$> l) →
  chromadb.add (document <$> l) (metadata vid <$> l)
               ((λ p, fragment_id vid p.1) <$> l) c
  = Ok (set_records (foldl add_one (records c) (entry vid <$> l)) c).
Proof.
  intros Hne Hlen Hnodup. unfold chromadb.add.
  rewrite bool_decide_false by (by destruct l).
  rewrite !length_fmap.
  rewrite (bool_decide_true (_ ∧ _)) by done.
  rewrite (bool_decide_true (NoDup _)) by done.
  rewrite bool_decide_false by lia. simpl.
  by rewrite zip3_fmap.
Qed.

Example range_examples :
  range 0 _BATCH_SIZE = [] ∧ range 1 _BATCH_SIZE = [0]
  ∧ range 500 _BATCH_SIZE = [0] ∧ range 501 _BATCH_SIZE = [0; 500]
  ∧ range 1000 _BATCH_SIZE = [0; 500].
Proof. done. Qed.

Lemma range_bounds (n B j : nat) :
  0 < B →
  (j < (n + B - 1) / B → j * B < n)
  ∧ ((n + B - 1) / B ≤ j → n ≤ j * B).
Proof.
  intros HB.
  pose proof (Nat.div_mod_eq (n + B - 1) B) as Hdm.
  pose proof (Nat.mod_upper_bound (n + B - 1) B ltac:(lia)) as Hmod.
  split; intros Hj; nia.
Qed.

Lemma batch_size_pos : 0 < _BATCH_SIZE.
Proof. unfold _BATCH_SIZE. lia. Qed.

#[local] Opaque _BATCH_SIZE.

(** The batch loop from batch [j] on stores every entry from position
    [j * _BATCH_SIZE] on and counts them. *)
Lemma add_batches_from (vid : string) l (k j : nat) c (indexed : nat) :
  _BATCH_SIZE ≤ max_batch_size c →
  NoDup ((λ p, fragment_id vid p.1) <$> l) →
  j + k = (length l + _BATCH_SIZE - 1) / _BATCH_SIZE →
  add_batches ((λ i, i * _BATCH_SIZE) <$> seq j k)
    (document <$> l) (metadata vid <$> l)
    ((λ p, fragment_id vid p.1) <$> l) c indexed
  = (set_records
       (foldl add_one (records c) (entry vid <$> drop (j * _BATCH_SIZE) l)) c,
     Ok (indexed + length (drop (j * _BATCH_SIZE) l))).
Proof.
  intros Hmax Hnodup. pose proof batch_size_pos as HB.
  revert j c indexed Hmax.
  induction k as [|k IH]; intros j c indexed Hmax Hjk.
  - destruct (range_bounds (length l) _BATCH_SIZE j HB) as [_ Hge].
    rewrite drop_ge by (apply Hge; lia). simpl.
    by rewrite set_records_id, Nat.add_0_r.
  - destruct (range_bounds (length l) _BATCH_SIZE j HB) as [Hlt _].
    specialize (Hlt ltac:(lia)).
    cbn [seq fmap list_fmap add_batches].
    rewrite !slice_fmap.
    assert (slice l (j * _BATCH_SIZE) (j * _BATCH_SIZE + _BATCH_SIZE)
            = take _BATCH_SIZE (drop (j * _BATCH_SIZE) l)) as ->.
    { unfold slice. f_equal. lia. }
    rewrite add_entries; first last.
    + rewrite fmap_take, fmap_drop.
      eapply sublist_NoDup; [done|].
      etrans; [apply sublist_take | apply sublist_drop].
    + rewrite length_take. lia.
    + intros Hnil. apply (f_equal length) in Hnil.
      rewrite length_take, length_drop in Hnil. cbn [length] in Hnil. lia.
    + rewrite IH by (done || lia).
      assert (drop (j * _BATCH_SIZE) l
              = take _BATCH_SIZE (drop (j * _BATCH_SIZE) l)
                ++ drop (S j * _BATCH_SIZE) l) as Hsplit.
      { rewrite <-(take_drop _BATCH_SIZE (drop (j * _BATCH_SIZE) l)) at 1.
        f_equal. rewrite drop_drop. f_equal. lia. }
      set (batch := take _BATCH_SIZE (drop (j * _BATCH_SIZE) l)) in *.
      set (rest := drop (S j * _BATCH_SIZE) l) in *.
      rewrite Hsplit, fmap_app, foldl_app, length_app, length_fmap.
      destruct c. simpl. f_equal. f_equal. lia.
Qed.

(** [kept] holds a segment with its position exactly when its stripped
    text is not empty. *)
Lemma elem_of_kept (segments : list TranscriptSegment) (i : nat)
    (seg : TranscriptSegment) :
  (i, seg) ∈ kept segments ↔
  segments !! i = Some seg ∧ Py.strip (seg_text seg) ≠ "".
Proof.
  unfold kept, enumerate. rewrite list_elem_of_filter. simpl.
  rewrite list_elem_of_lookup. split.
  - intros [Hne [j Hj]]. split; [|done].
    apply lookup_zip_with_Some in Hj as (x & y & Heq & Hx & Hy).
    apply lookup_seq in Hx as [-> _]. by simplify_eq/=.
  - intros [Hseg Hne]. split; [done|]. exists i.
    apply lookup_zip_with_Some. exists i, seg. split_and!; [done| |done].
    apply lookup_seq. split; [done|]. by eapply lookup_lt_Some.
Qed.

Lemma kept_fst_NoDup (segments : list TranscriptSegment) :
  NoDup (kept segments).*1.
Proof.
  unfold kept, enumerate.
  eapply sublist_NoDup; [apply (NoDup_seq 0 (length segments))|].
  rewrite <-(fst_zip (seq 0 (length segments)) segments) at 2
    by (by rewrite length_seq).
  apply fmap_sublist, sublist_filter.
Qed.

Lemma kept_snd (segments : list TranscriptSegment) :
  (kept segments).*2 = filter (λ seg, Py.strip (seg_text seg) ≠ "") segments.
Proof.
  unfold kept, enumerate. generalize 0 as a.
  induction segments as [|seg segments IH]; intros a; [done|].
  cbn [length seq zip_with]. rewrite !filter_cons. simpl.
  case_decide; csimpl; by rewrite IH.
Qed.

(** The returned count: the segments whose stripped text is not empty. *)
Lemma length_kept (segments : list TranscriptSegment) :
  length (kept segments)
  = length (filter (λ seg, Py.strip (seg_text seg) ≠ "") segments).
Proof. by rewrite <-kept_snd, length_fmap. Qed.

#[local] Instance fragment_id_inj' vid : Inj (=) (=) (fragment_id vid).
Proof. intros i j Heq. by apply fragment_id_inj in Heq as [_ ?]. Qed.

Lemma entries_fst (vid : string) (segments : list TranscriptSegment) :
  (entries vid segments).*1 = fragment_id vid <$> (kept segments).*1.
Proof. unfold entries. by rewrite <-!list_fmap_compose. Qed.

Lemma entries_NoDup (vid : string) (segments : list TranscriptSegment) :
  NoDup (entries vid segments).*1.
Proof. rewrite entries_fst. apply (NoDup_fmap_2 _), kept_fst_NoDup. Qed.

(** Adding records one by one, skipping ids already there, is the union
    with the map of the added records, the collection's own records
    winning. *)
Lemma foldl_add_one m (es : list (string * (string * Metadata))) :
  foldl add_one m es = m ∪ list_to_map es.
Proof.
  revert m. induction es as [|[k r] es IH]; intros m; simpl.
  - by rewrite (right_id_L ∅ (∪)).
  - rewrite IH. unfold add_one. simpl. apply map_eq. intros i.
    destruct (m !! k) as [r'|] eqn:Hk.
    + rewrite !lookup_union. destruct (decide (i = k)) as [->|Hne].
      * rewrite Hk, lookup_insert_eq. by destruct (list_to_map es !! k).
      * by rewrite lookup_insert_ne.
    + rewrite !lookup_union. destruct (decide (i = k)) as [->|Hne].
      * rewrite Hk, !lookup_insert_eq. by destruct (list_to_map es !! k).
      * by rewrite !lookup_insert_ne.
Qed.

Lemma delete_video_records (vid : string) c :
  records (delete_video vid c)
  = filter (λ kr, meta_video_id kr.2.2 ≠ vid) (records c)
  ∧ max_batch_size (delete_video vid c) = max_batch_size c
  ∧ delete_raises_on_no_match (delete_video vid c)
    = delete_raises_on_no_match c.
Proof.
  unfold delete_video, chromadb.delete.
  destruct c as [m mx [|]]; simpl; [|done].
  case_bool_decide as Hsz; simpl; [|done].
  split; [|done]. symmetry. apply map_filter_id. intros k r Hr Heq.
  apply map_size_empty_iff in Hsz.
  assert (owned_by vid m !! k = Some r) as Hin.
  { by apply map_lookup_filter_Some. }
  by rewrite Hsz in Hin.
Qed.

Lemma foldl_collect_step (vid : string) l
    (ds : list string) (ms : list Metadata) (ks : list string) :
  foldl (collect_step vid) (ds, ms, ks) l
  = (ds ++ (document <$> filter (λ p, Py.strip (seg_text p.2) ≠ "") l),
     ms ++ (metadata vid <$> filter (λ p, Py.strip (seg_text p.2) ≠ "") l),
     ks ++ ((λ p, fragment_id vid p.1)
              <$> filter (λ p, Py.strip (seg_text p.2) ≠ "") l)).
Proof.
  revert ds ms ks. induction l as [|p l IH]; intros ds ms ks.
  - by rewrite !app_nil_r.
  - cbn [foldl]. unfold collect_step at 2. rewrite filter_cons.
    destruct (decide (Py.strip (seg_text p.2) = "")) as [Hblank|Hne].
    + rewrite decide_False by (by intros ?). apply IH.
    + rewrite decide_True by done. rewrite IH. csimpl.
      by rewrite <-!app_assoc.
Qed.

(** The loop leaves the text, metadata and id of every kept segment, in
    order. *)
Lemma collect_kept (vid : string) (segments : list TranscriptSegment) :
  collect vid segments
  = (document <$> kept segments, metadata vid <$> kept segments,
     (λ p, fragment_id vid p.1) <$> kept segments).
Proof. unfold collect. by rewrite foldl_collect_step. Qed.

Lemma ids_NoDup (vid : string) (segments : list TranscriptSegment) :
  NoDup ((λ p, fragment_id vid p.1) <$> kept segments).
Proof.
  change (NoDup (fragment_id vid ∘ fst <$> kept segments)).
  rewrite list_fmap_compose. apply (NoDup_fmap_2 _), kept_fst_NoDup.
Qed.

Lemma delete_video_eq (vid : string) c :
  delete_video vid c
  = set_records (filter (λ kr, meta_video_id kr.2.2 ≠ vid) (records c)) c.
Proof.
  destruct (delete_video_records vid c) as (Hr & Hm & Hf).
  destruct (delete_video vid c), c. simpl in *. by subst.
Qed.

Lemma range_seq (n : nat) :
  range n _BATCH_SIZE
  = (λ i, i * _BATCH_SIZE) <$> seq 0 ((n + _BATCH_SIZE - 1) / _BATCH_SIZE).
Proof. reflexivity. Qed.

(** What [index_video] leaves behind and returns on a non-empty list. *)
Lemma index_video_spec (vid : string) (segments : list TranscriptSegment) c :
  segments ≠ [] → _BATCH_SIZE ≤ max_batch_size c →
  index_video vid segments c
  = (set_records
       (filter (λ kr, meta_video_id kr.2.2 ≠ vid) (records c)
          ∪ list_to_map (entries vid segments)) c,
     Ok (length (kept segments))).
Proof.
  intros Hne Hmax. unfold index_video.
  destruct segments as [|seg segs]; [done|].
  set (segments := seg :: segs). rewrite collect_kept, length_fmap, range_seq.
  rewrite (add_batches_from vid (kept segments) _ 0); first last.
  - done.
  - apply ids_NoDup.
  - by destruct (delete_video_records vid c) as (_ & -> & _).
  - rewrite Nat.mul_0_l, drop_0, foldl_add_one, delete_video_eq. done.
Qed.

Lemma lookup_entries (vid : string) (segments : list TranscriptSegment)
    (k : string) (r : string * Metadata) :
  (list_to_map (entries vid segments) : gmap _ _) !! k = Some r ↔
  ∃ i seg, segments !! i = Some seg ∧ Py.strip (seg_text seg) ≠ ""
           ∧ k = fragment_id vid i
           ∧ r = (Py.strip (seg_text seg), metadata vid (i, seg)).
Proof.
  rewrite <-elem_of_list_to_map by apply entries_NoDup.
  unfold entries. rewrite list_elem_of_fmap. split.
  - intros ([i seg] & Heq & [Hseg Hne]%elem_of_kept).
    unfold entry in Heq. simplify_eq/=. by exists i, seg.
  - intros (i & seg & Hseg & Hne & -> & ->). exists (i, seg).
    split; [done|]. by apply elem_of_kept.
Qed.

(** After [index_video], the records owned by the video are exactly the
    entries built from its kept segments. *)
Lemma owned_by_indexed (vid : string) (segments : list TranscriptSegment) c :
  well_keyed c →
  owned_by vid (filter (λ kr, meta_video_id kr.2.2 ≠ vid) (records c)
                  ∪ list_to_map (entries vid segments))
  = list_to_map (entries vid segments).
Proof.
  intros Hwk. apply map_eq. intros k. apply option_eq. intros r.
  unfold owned_by.
  rewrite map_lookup_filter_Some, lookup_union_Some_raw,
    map_lookup_filter_Some. simpl. split.
  - intros [[[_ Hne] | [_ Hr]] Hvid]; done.
  - intros Hr. pose proof Hr as Hr'.
    apply lookup_entries in Hr' as (i & seg & _ & _ & -> & ->).
    split; [|done]. right. split; [|done].
    apply eq_None_not_Some. intros [r' [Hr' Hne]%map_lookup_filter_Some].
    apply Hwk in Hr'. simpl in *.
    by apply fragment_id_inj in Hr' as [? _].
Qed.

Lemma well_keyed_add_batches (vid : string) l (starts : list nat) c
    (indexed : nat) :
  well_keyed c →
  well_keyed (add_batches starts (document <$> l) (metadata vid <$> l)
                ((λ p, fragment_id vid p.1) <$> l) c indexed).1.
Proof.
  revert c indexed.
  induction starts as [|j starts IH]; intros c indexed Hwk; [done|].
  cbn [add_batches]. rewrite !slice_fmap.
  set (batch := slice l _ _).
  destruct (chromadb.add _ _ _ c) as [c'|e] eqn:Hadd; [|done].
  apply IH. unfold chromadb.add in Hadd.
  repeat (case_match; [done|]). simplify_eq. unfold well_keyed. simpl.
  rewrite zip3_fmap, foldl_add_one. apply map_Forall_union_2; [done|].
  intros k r ((i & seg') & Heq & _)%elem_of_list_to_map_2%list_elem_of_fmap.
  by simplify_eq/=.
Qed.

Lemma well_keyed_delete_video (vid : string) c :
  well_keyed c → well_keyed (delete_video vid c).
Proof.
  intros Hwk. rewrite delete_video_eq.
  intros k r [Hr _]%map_lookup_filter_Some. by apply Hwk.
Qed.

(** [index_video] keeps every record under the id built from its own
    metadata. *)
Lemma well_keyed_indexed (vid : string) (segments : list TranscriptSegment) c :
  well_keyed c → well_keyed (index_video vid segments c).1.
Proof.
  intros Hwk. unfold index_video.
  destruct segments as [|seg segs]; [done|]. rewrite collect_kept.
  by apply well_keyed_add_batches, well_keyed_delete_video.
Qed.

Lemma well_keyed_empty (n : nat) (b : bool) :
  well_keyed {| records := ∅; max_batch_size := n;
                delete_raises_on_no_match := b |}.
Proof. apply map_Forall_empty. Qed.

Lemma batch_bounds {A} (l : list A) (start : nat) :
  start ∈ range (length l) _BATCH_SIZE →
  0 < length (slice l start (start + _BATCH_SIZE)) ≤ _BATCH_SIZE.
Proof.
  rewrite range_seq. intros (j & -> & Hj)%list_elem_of_fmap.
  apply elem_of_seq in Hj as [_ Hj]. simpl in Hj.
  destruct (range_bounds (length l) _BATCH_SIZE j batch_size_pos) as [Hlt _].
  specialize (Hlt Hj). pose proof batch_size_pos.
  unfold slice. rewrite length_take, length_drop. lia.
Qed.

Lemma kept_all (segments : list TranscriptSegment) :
  (∀ seg, seg ∈ segments → Py.strip (seg_text seg) ≠ "") →
  length (kept segments) = length segments.
Proof.
  clear parse_video_id now classify _fetch_info.
  intros Hall. rewrite length_kept. f_equal.
  induction segments as [|seg segments IH]; [done|].
  rewrite filter_cons_True by (apply Hall; set_solver).
  f_equal. apply IH. intros seg' Hin. apply Hall. set_solver.
Qed.

(** C7: with the engine's ceiling at or above [_BATCH_SIZE], and for
    segments as the data model has them (text not empty after trimming),
    [index_video] stores every segment and returns their number, however
    many there are: each batch it hands to the engine holds between 1 and
    [_BATCH_SIZE] records, and the stored records are those of adding all
    entries one after another, so the batch boundaries do not show. *)
Theorem C7_chunked_indexing (vid : string)
    (segments : list TranscriptSegment) (c : Collection) :
  well_keyed c → _BATCH_SIZE ≤ max_batch_size c → segments ≠ [] →
  (∀ seg, seg ∈ segments → Py.strip (seg_text seg) ≠ "") →
  ∃ c',
    index_video vid segments c = (c', Ok (length segments))
    ∧ (∀ i seg, segments !! i = Some seg →
         records c' !! fragment_id vid i
         = Some (Py.strip (seg_text seg), metadata vid (i, seg)))
    ∧ size (owned_by vid (records c')) = length segments
    ∧ records c'
      = foldl add_one (records (delete_video vid c)) (entries vid segments)
    ∧ (∀ start, start ∈ range (length (entries vid segments)) _BATCH_SIZE →
         0 < length (slice (entries vid segments) start
                       (start + _BATCH_SIZE)) ≤ _BATCH_SIZE).
Proof.
  intros Hwk Hmax Hne Hall. eexists. split_and!.
  - rewrite index_video_spec by done. by rewrite kept_all.
  - intros i seg Hseg. simpl.
    assert ((list_to_map (entries vid segments) : gmap _ _)
              !! fragment_id vid i
            = Some (Py.strip (seg_text seg), metadata vid (i, seg))) as Hr.
    { apply lookup_entries. exists i, seg. split_and!; try done.
      apply Hall. by eapply list_elem_of_lookup_2. }
    rewrite <-(owned_by_indexed vid segments c Hwk) in Hr.
    by apply map_lookup_filter_Some in Hr as [? _].
  - simpl. rewrite owned_by_indexed by done.
    rewrite map_size_list_to_map by apply entries_NoDup.
    unfold entries. by rewrite length_fmap, kept_all.
  - simpl. by rewrite foldl_add_one, delete_video_eq.
  - intros start. apply batch_bounds.
Qed.

(** C10: [index_video] stores no record for a segment whose stripped text
    is empty and does not count it: the returned number is the number of
    segments with non-empty stripped text, at most the length of the
    list.  The ids of the stored records carry the positions the segments
    have in the input list, so the gaps left by skipped segments stay;
    a list of three segments with a blank middle one returns 2 and is
    stored under suffixes 0 and 2. *)
Theorem C10_blank_segments_skipped (vid : string)
    (segments : list TranscriptSegment) (c : Collection) :
  well_keyed c → _BATCH_SIZE ≤ max_batch_size c → segments ≠ [] →
  let count :=
    length (filter (λ seg, Py.strip (seg_text seg) ≠ "") segments) in
  ∃ c',
    index_video vid segments c = (c', Ok count)
    ∧ count ≤ length segments
    ∧ size (owned_by vid (records c')) = count
    ∧ (∀ k, is_Some (owned_by vid (records c') !! k) ↔
            ∃ i seg, segments !! i = Some seg
                     ∧ Py.strip (seg_text seg) ≠ ""
                     ∧ k = fragment_id vid i)
    ∧ (∀ i seg, segments !! i = Some seg → Py.strip (seg_text seg) = "" →
         records c' !! fragment_id vid i = None)
    ∧ (∃ a b,
         Py.strip (seg_text a) ≠ "" ∧ Py.strip (seg_text b) = ""
         ∧ (index_video vid [a; b; a] c).2 = Ok 2
         ∧ is_Some (records (index_video vid [a; b; a] c).1
                      !! (vid +:+ "_0"))
         ∧ records (index_video vid [a; b; a] c).1 !! (vid +:+ "_1") = None
         ∧ is_Some (records (index_video vid [a; b; a] c).1
                      !! (vid +:+ "_2"))).
Proof.
  intros Hwk Hmax Hne count.
  assert (∀ segments c', segments ≠ [] →
            (index_video vid segments c).1 = c' →
            ∀ i seg, segments !! i = Some seg →
              Py.strip (seg_text seg) = "" →
              records c' !! fragment_id vid i = None) as Hblank.
  { clear segments Hne count. intros segments c' Hne <- i seg Hseg Hempty.
    rewrite index_video_spec by done. simpl.
    apply eq_None_not_Some. intros [r Hr].
    assert (meta_video_id r.2 = vid) as Hvid.
    { apply lookup_union_Some_raw in Hr
        as [[Hr _]%map_lookup_filter_Some | [_ Hr]].
      - apply Hwk in Hr. simpl in Hr.
        by apply fragment_id_inj in Hr as [? _].
      - by apply lookup_entries in Hr as (? & ? & _ & _ & _ & ->). }
    assert (owned_by vid
              (filter (λ kr, meta_video_id kr.2.2 ≠ vid) (records c)
                 ∪ list_to_map (entries vid segments))
              !! fragment_id vid i = Some r) as Hin.
    { by apply map_lookup_filter_Some. }
    rewrite owned_by_indexed in Hin by done.
    apply lookup_entries in Hin as (j & seg' & Hseg' & Hne' & Hk & _).
    apply fragment_id_inj in Hk as [_ <-]. by simplify_eq. }
  assert (∀ segments k, segments ≠ [] →
            is_Some (owned_by vid (records (index_video vid segments c).1)
                       !! k) ↔
            ∃ i seg, segments !! i = Some seg
                     ∧ Py.strip (seg_text seg) ≠ ""
                     ∧ k = fragment_id vid i) as Hkeys.
  { clear segments Hne count Hblank. intros segments k Hne.
    rewrite index_video_spec by done. simpl.
    rewrite owned_by_indexed by done. split.
    - intros [r (i & seg & ? & ? & ? & _)%lookup_entries]. eauto.
    - intros (i & seg & ? & ? & ?). eexists. apply lookup_entries.
      by exists i, seg. }
  eexists. split_and!.
  - rewrite index_video_spec by done. by rewrite length_kept.
  - apply length_filter.
  - simpl. rewrite owned_by_indexed by done.
    rewrite map_size_list_to_map by apply entries_NoDup.
    unfold entries. by rewrite length_fmap, length_kept.
  - intros k. specialize (Hkeys segments k Hne).
    by rewrite index_video_spec in Hkeys by done.
  - intros i seg. apply (Hblank segments); [done|].
    by rewrite index_video_spec by done.
  - exists {| seg_start := 0; seg_duration := 0; seg_text := "a" |},
           {| seg_start := 0; seg_duration := 0; seg_text := " " |}.
    set (a := {| seg_text := "a" |}). set (b := {| seg_text := " " |}).
    assert ([a; b; a] ≠ []) as Hne3 by done.
    split_and!; [done|done|..].
    + by rewrite index_video_spec by done.
    + assert (is_Some (owned_by vid (records (index_video vid [a; b; a] c).1)
                         !! fragment_id vid 0))
        as [r [Hr _]%map_lookup_filter_Some]; [|by eexists].
      apply Hkeys; [done|]. by exists 0, a.
    + by apply (Hblank [a; b; a] _ Hne3 eq_refl 1 b).
    + assert (is_Some (owned_by vid (records (index_video vid [a; b; a] c).1)
                         !! fragment_id vid 2))
        as [r [Hr _]%map_lookup_filter_Some]; [|by eexists].
      apply Hkeys; [done|]. by exists 2, a.
Qed.

(** C2, as the code has it: for a non-empty second list, indexing [s1]
    and then [s2] under the same identifier leaves, as the records owned
    by that identifier, exactly the entries built from [s2]: as many as
    [s2] has segments with non-empty stripped text, which is [len(s2)]
    for segments as the data model has them, and none from [s1].  An
    empty second list is a no-op that returns 0 and leaves the
    collection as the first call left it. *)
Theorem C2_reindex_replaces (vid : string)
    (s1 s2 : list TranscriptSegment) (c : Collection) :
  well_keyed c → _BATCH_SIZE ≤ max_batch_size c → s2 ≠ [] →
  let c1 := (index_video vid s1 c).1 in
  let c2 := (index_video vid s2 c1).1 in
  owned_by vid (records c2) = list_to_map (entries vid s2)
  ∧ size (owned_by vid (records c2))
    = length (filter (λ seg, Py.strip (seg_text seg) ≠ "") s2)
  ∧ ((∀ seg, seg ∈ s2 → Py.strip (seg_text seg) ≠ "") →
       size (owned_by vid (records c2)) = length s2)
  ∧ index_video vid [] c1 = (c1, Ok 0).
Proof.
  intros Hwk Hmax Hne c1 c2.
  assert (well_keyed c1) as Hwk1 by by apply well_keyed_indexed.
  assert (_BATCH_SIZE ≤ max_batch_size c1) as Hmax1.
  { unfold c1. destruct s1 as [|seg s1]; [done|].
    by rewrite index_video_spec by done. }
  assert (owned_by vid (records c2) = list_to_map (entries vid s2)) as Hown.
  { unfold c2. rewrite index_video_spec by done. simpl.
    by apply owned_by_indexed. }
  assert (size (owned_by vid (records c2))
          = length (filter (λ seg, Py.strip (seg_text seg) ≠ "") s2)) as Hsz.
  { rewrite Hown, map_size_list_to_map by apply entries_NoDup.
    unfold entries. by rewrite length_fmap, length_kept. }
  split_and!; [done|done| |done].
  intros Hall. by rewrite Hsz, <-length_kept, kept_all.
Qed.

End semantic_index.

(** ** Further properties *)

(** *** The entity store: insert, upsert, delete, listing *)

Section repository_operations.
Import SQLiteVideoRepository.
Implicit Types (t : gmap string Row) (v m : Video) (id : string).

Lemma row_to_video_excluded v :
  _row_to_video (video_id v) (excluded v) true = v.
Proof. by destruct v. Qed.

(** X1: saving a record under an identifier that is not stored and reading it
    back gives the record itself, transcript and chapters included; the
    identifier now exists, the table has one row more, and every other
    identifier reads as before. *)
Theorem save_get_round_trip v t :
  t !! video_id v = None →
  get (video_id v) (save v t) = Some v
  ∧ exists_ (video_id v) (save v t) = true
  ∧ size (save v t) = S (size t)
  ∧ (∀ id, id ≠ video_id v → get id (save v t) = get id t).
Proof.
  intros Hnew. unfold get, exists_, save. rewrite Hnew. split_and!.
  - rewrite lookup_insert_eq. simpl. by rewrite row_to_video_excluded.
  - rewrite lookup_insert_eq. by apply bool_decide_true.
  - by apply map_size_insert_None.
  - intros id Hne. by rewrite lookup_insert_ne.
Qed.

Lemma list_all_ids t id :
  id ∈ video_id <$> list_all t ↔ is_Some (t !! id).
Proof.
  rewrite list_elem_of_fmap. split.
  - intros (m & -> & (id' & row & Hrow & ->)%elem_of_list_all). by eexists.
  - intros [row Hrow]. exists (_row_to_video id row false). split; [done|].
    apply elem_of_list_all. eauto.
Qed.

Lemma list_all_ids_NoDup t : NoDup (video_id <$> list_all t).
Proof.
  assert (∀ l : list (string * Row),
            video_id <$> ((λ kr, _row_to_video kr.1 kr.2 false) <$> l)
            = l.*1) as Hids.
  { intros l. induction l as [|[??] l IH]; csimpl; by f_equal. }
  rewrite list_all_Permutation, Hids. apply NoDup_fst_map_to_list.
Qed.

(** X2: the listing never holds an identifier twice, and [save] keeps it so:
    after a save the listed identifiers are the old ones and the saved
    one, and the listing is one longer exactly when the identifier was not
    stored before. *)
Theorem save_never_duplicates v t :
  NoDup (video_id <$> list_all (save v t))
  ∧ (∀ id, id ∈ video_id <$> list_all (save v t)
           ↔ id = video_id v ∨ id ∈ video_id <$> list_all t)
  ∧ length (list_all (save v t))
    = if exists_ (video_id v) t then length (list_all t)
      else S (length (list_all t)).
Proof.
  split_and!.
  - apply list_all_ids_NoDup.
  - intros id. rewrite !list_all_ids. unfold save.
    destruct (t !! video_id v) as [old|] eqn:Hold;
      (destruct (decide (id = video_id v)) as [->|Hne];
       [rewrite lookup_insert_eq; split; [by left | by eexists]
       |rewrite lookup_insert_ne by done;
        split; [by right | by intros [?|?]]]).
  - rewrite !length_list_all. unfold exists_, save.
    destruct (t !! video_id v) as [old|] eqn:Hold.
    + rewrite bool_decide_true by eauto.
      by rewrite map_size_insert_Some.
    + rewrite bool_decide_false by (by intros [??]).
      by rewrite map_size_insert_None.
Qed.

(** X3: [delete] removes the row: afterwards [get] finds nothing and [exists]
    is false, every other identifier reads as before, the listing loses
    exactly that identifier; on an identifier that is not stored it changes
    nothing; and deleting a record that was inserted under a new identifier
    gives the table back as it was. *)
Theorem delete_removes_only_that_row id t :
  get id (delete id t) = None
  ∧ exists_ id (delete id t) = false
  ∧ (∀ id', id' ≠ id → get id' (delete id t) = get id' t)
  ∧ (∀ id', id' ∈ video_id <$> list_all (delete id t)
            ↔ id' ≠ id ∧ id' ∈ video_id <$> list_all t)
  ∧ (t !! id = None → delete id t = t)
  ∧ (∀ v, video_id v = id → t !! id = None → delete id (save v t) = t).
Proof.
  unfold get, exists_, delete. split_and!.
  - by rewrite lookup_delete_eq.
  - rewrite lookup_delete_eq. apply bool_decide_false. by intros [??].
  - intros id' Hne. by rewrite lookup_delete_ne.
  - intros id'. rewrite !list_all_ids.
    destruct (decide (id' = id)) as [->|Hne].
    + rewrite lookup_delete_eq. split; [by intros [??]|by intros [??]].
    + rewrite lookup_delete_ne by done.
      split; [by intros ? | by intros [_ ?]].
  - apply delete_id.
  - intros v <- Hnew. unfold save. rewrite Hnew.
    by rewrite delete_insert_eq, delete_id.
Qed.

(** X4: [exists] answers true exactly for the identifiers [get] finds and the
    listing shows. *)
Theorem exists_iff_get id t :
  (exists_ id t = true ↔ is_Some (get id t))
  ∧ (exists_ id t = true ↔ id ∈ video_id <$> list_all t).
Proof.
  rewrite list_all_ids. unfold exists_, get.
  rewrite bool_decide_eq_true, fmap_is_Some. done.
Qed.

(** X5: a listed video carries no transcript and no chapters, whatever is
    stored; its other fields are those of the stored record, which [get]
    returns in full. *)
Theorem list_all_metadata_only t m :
  m ∈ list_all t →
  transcript m = [] ∧ chapters m = []
  ∧ ∃ v, get (video_id m) t = Some v
         ∧ video_id v = video_id m ∧ title v = title m
         ∧ description v = description m ∧ channel v = channel m
         ∧ duration v = duration m ∧ thumbnail_url v = thumbnail_url m
         ∧ tags v = tags m ∧ added_at v = added_at m.
Proof.
  intros (row & Hrow & -> & Hget)%get_listed. simpl.
  split_and!; [done..|]. eexists. split; [exact Hget|done].
Qed.

End repository_operations.

(** *** The semantic index: purge, re-indexing, histories, search *)

Section index_operations.
Import chromadb ChromaVectorStore.
Implicit Types (c : Collection) (m : gmap string (string * Metadata)).
Implicit Types (l : list (nat * TranscriptSegment)).

#[local] Opaque _BATCH_SIZE.

(** Whatever the engine accepts or rejects, the batch loop leaves the
    collection's records plus entries of kept segments. *)
Lemma add_batches_records (vid : string) l (starts : list nat) c
    (indexed : nat) :
  ∃ l', l' ⊆ l
        ∧ records (add_batches starts (document <$> l) (metadata vid <$> l)
                     ((λ p, fragment_id vid p.1) <$> l) c indexed).1
          = records c ∪ list_to_map (entry vid <$> l').
Proof.
  revert c indexed.
  induction starts as [|j starts IH]; intros c indexed.
  - exists []. split; [apply list_subseteq_nil|]. simpl. by rewrite (right_id_L ∅ (∪)).
  - cbn [add_batches]. rewrite !slice_fmap.
    set (batch := slice l _ _).
    assert (batch ⊆ l) as Hsub.
    { unfold batch, slice. etrans; [apply subseteq_take|apply subseteq_drop]. }
    destruct (chromadb.add _ _ _ c) as [c'|e] eqn:Hadd.
    + destruct (IH c' (indexed + length (document <$> batch)))
        as (l' & Hl' & Hrec).
      exists (batch ++ l'). split; [intros p [?|?]%elem_of_app; auto|]. rewrite Hrec.
      unfold chromadb.add in Hadd.
      repeat (case_match; [done|]). simplify_eq. simpl.
      by rewrite zip3_fmap, fmap_app, <-!foldl_add_one, foldl_app.
    + exists []. split; [apply list_subseteq_nil|]. simpl. by rewrite (right_id_L ∅ (∪)).
Qed.

(** After [index_video] on a non-empty list the records are those the
    purge left plus entries of kept segments, with 0 returned only if
    nothing was handed to the engine. *)
Lemma index_video_records (vid : string) (segments : list TranscriptSegment) c :
  segments ≠ [] →
  ∃ l', l' ⊆ kept segments
        ∧ records (index_video vid segments c).1
          = filter (λ kr, meta_video_id kr.2.2 ≠ vid) (records c)
              ∪ list_to_map (entry vid <$> l').
Proof.
  intros Hne. unfold index_video. destruct segments as [|seg segs]; [done|].
  rewrite collect_kept.
  destruct (add_batches_records vid (kept (seg :: segs))
              (range (length (document <$> kept (seg :: segs))) _BATCH_SIZE)
              (delete_video vid c) 0) as (l' & Hl' & Hrec).
  exists l'. split; [done|]. by rewrite Hrec, delete_video_eq.
Qed.

Lemma owned_by_purged (vid : string) c :
  owned_by vid (records (delete_video vid c)) = ∅.
Proof.
  rewrite delete_video_eq. simpl.
  apply map_empty_filter. intros k r [_ Hne]%map_lookup_filter_Some.
  by intros ?.
Qed.

(** X6: [delete_video] leaves no record owned by the video, keeps every other
    record, adds none, and doing it twice is doing it once. *)
Theorem delete_video_purges (vid : string) c :
  owned_by vid (records (delete_video vid c)) = ∅
  ∧ (∀ k r, records (delete_video vid c) !! k = Some r ↔
            records c !! k = Some r ∧ meta_video_id r.2 ≠ vid)
  ∧ (∀ other, other ≠ vid →
       owned_by other (records (delete_video vid c))
       = owned_by other (records c))
  ∧ delete_video vid (delete_video vid c) = delete_video vid c.
Proof.
  split; [apply owned_by_purged|].
  rewrite !delete_video_eq. simpl. split_and!.
  - intros k r. by rewrite map_lookup_filter_Some.
  - intros other Hother. unfold owned_by. apply map_eq. intros k.
    apply option_eq. intros r.
    rewrite !map_lookup_filter_Some. simpl. split.
    + by intros [[? _] ?].
    + intros [? <-]. split_and!; done.
  - unfold set_records. simpl. f_equal. apply map_filter_id.
    by intros k r [_ ?]%map_lookup_filter_Some.
Qed.

(** X7: [index_video] on one video, succeed or raise, never touches the
    fragments of another. *)
Theorem index_video_keeps_other_videos (vid other : string)
    (segments : list TranscriptSegment) c :
  other ≠ vid →
  owned_by other (records (index_video vid segments c).1)
  = owned_by other (records c).
Proof.
  intros Hother. destruct segments as [|seg segs]; [done|].
  destruct (index_video_records vid (seg :: segs) c) as (l' & _ & ->);
    [done|].
  unfold owned_by. apply map_eq. intros k. apply option_eq. intros r.
  rewrite !map_lookup_filter_Some, lookup_union_Some_raw,
    map_lookup_filter_Some. simpl. split.
  - intros [[[Hr _] | [_ Hr]] Hmeta]; [done|].
    apply elem_of_list_to_map_2, list_elem_of_fmap in Hr
      as (p & Heq & _).
    unfold entry in Heq. by simplify_eq/=.
  - intros [Hr <-]. split; [|done]. left. done.
Qed.

(** X8: succeed or raise, [index_video] on a non-empty list leaves no fragment
    of an earlier generation: every record the video owns afterwards is an
    entry built from this call's segments. *)
Theorem index_video_leaves_no_stale_fragment (vid : string)
    (segments : list TranscriptSegment) c (k : string)
    (r : string * Metadata) :
  segments ≠ [] →
  owned_by vid (records (index_video vid segments c).1) !! k = Some r →
  ∃ i seg, segments !! i = Some seg
           ∧ k = fragment_id vid i
           ∧ r = (Py.strip (seg_text seg), metadata vid (i, seg)).
Proof.
  intros Hne.
  destruct (index_video_records vid segments c) as (l' & Hl' & ->); [done|].
  unfold owned_by.
  rewrite map_lookup_filter_Some, lookup_union_Some_raw,
    map_lookup_filter_Some. simpl.
  intros [[[_ Hnot] | [_ Hr]] Hmeta]; [done|].
  apply elem_of_list_to_map_2, list_elem_of_fmap in Hr
    as ([i seg] & Heq & Hin).
  apply Hl', elem_of_kept in Hin as [Hseg _].
  unfold entry in Heq. simplify_eq/=. by exists i, seg.
Qed.

(** X9: a non-empty list whose segments are all blank is no no-op: the
    video's fragments are purged and 0 is returned, without a call to the
    engine's [add], whatever its ceiling. *)
Theorem index_video_blank_list_purges (vid : string)
    (segments : list TranscriptSegment) c :
  segments ≠ [] →
  (∀ seg, seg ∈ segments → Py.strip (seg_text seg) = "") →
  index_video vid segments c = (delete_video vid c, Ok 0)
  ∧ owned_by vid (records (index_video vid segments c).1) = ∅.
Proof.
  intros Hne Hblank.
  assert (kept segments = []) as Hkept.
  { apply elem_of_nil_inv. intros [i seg] [Hseg Hnb]%elem_of_kept.
    apply Hnb, Hblank. by eapply list_elem_of_lookup_2. }
  assert (index_video vid segments c = (delete_video vid c, Ok 0)) as ->.
  { unfold index_video. destruct segments as [|seg segs]; [done|].
    by rewrite collect_kept, Hkept. }
  split; [done|]. apply owned_by_purged.
Qed.

(** X10: every collection that a history of [index_video] and [delete_video]
    calls builds from an empty one keeps each record under the id made of
    its own video and position, and stores no empty document. *)
Theorem replay_invariant (calls : list store_call) (n : nat) (b : bool)
    (k : string) (r : string * Metadata) :
  records (replay calls {| records := ∅; max_batch_size := n;
                           delete_raises_on_no_match := b |}) !! k
  = Some r →
  k = fragment_id (meta_video_id r.2) (meta_segment_index r.2) ∧ r.1 ≠ "".
Proof.
  set (inv := λ (k : string) (r : string * Metadata),
         k = fragment_id (meta_video_id r.2) (meta_segment_index r.2)
         ∧ r.1 ≠ "").
  assert (∀ c, map_Forall inv (records c) →
               ∀ call, map_Forall inv (records (replay_call c call)))
    as Hstep.
  { intros c Hc [vid segments|vid]; simpl.
    - destruct segments as [|seg segs]; [done|].
      destruct (index_video_records vid (seg :: segs) c)
        as (l' & Hl' & ->); [done|].
      apply map_Forall_union_2.
      + intros k' r' [Hr _]%map_lookup_filter_Some. by apply Hc.
      + intros k' r' Hr.
        apply elem_of_list_to_map_2, list_elem_of_fmap in Hr
          as ([i seg'] & Heq & Hin).
        apply Hl', elem_of_kept in Hin as [_ Hnb].
        unfold entry in Heq. by simplify_eq/=.
    - rewrite delete_video_eq. simpl.
      intros k' r' [Hr _]%map_lookup_filter_Some. by apply Hc. }
  assert (∀ calls c, map_Forall inv (records c) →
                     map_Forall inv (records (replay calls c))) as Hall.
  { clear calls. intros calls.
    induction calls as [|call calls IH]; intros c Hc; [done|].
    apply IH, Hstep, Hc. }
  intros Hr. eapply (Hall calls); [|exact Hr]. apply map_Forall_empty.
Qed.

End index_operations.

(** *** Resolution and orchestration: edges, frames and compositions *)

Section service_edges.
Import SQLiteVideoRepository.

Ltac run :=
  unfold mbind, M_bind, mret, M_ret, lift, raise, vectorstore,
    repo_get, repo_list_all, repo_exists, repo_delete, repo_save,
    vectorstore_delete_video, vectorstore_index_video, extract,
    llm_classify, try_except_LLMError;
  simpl.

Ltac reads :=
  repeat (apply Forall_cons; split; [by eauto|]); by apply Forall_nil.

Lemma decimal_value_none (s : string) (acc : Z) :
  Py.all_chars Py.is_decimal s = false → Py.decimal_value acc s = None.
Proof.
  revert acc. induction s as [|c s IH]; intros acc Hs; simpl in *; [done|].
  destruct (Py.is_decimal c); [|done]. by apply IH.
Qed.

Lemma int_non_decimal (q : string) :
  Py.all_chars Py.is_decimal q = false → int q = Raise (ValueError q).
Proof.
  intros Hq. unfold int. destruct q as [|c q]; [done|].
  rewrite (decimal_value_none _ 0 Hq). by case_match.
Qed.

Lemma int_raises (q : string) (e : exn) :
  int q = Raise e → e = ValueError q.
Proof.
  unfold int. destruct q as [|c q]; [congruence|].
  case_match; [congruence|].
  destruct (Py.decimal_value 0 (String c q)); congruence.
Qed.

(** X12: [resolve_video] only reads: store and index are as before and the
    calls it makes are [get] and [list_all].  What it returns is a stored
    entity in full, never [None]; what it raises is
    [VideoNotFoundError], [AmbiguousVideoError] or the [ValueError] of
    [int]. *)
Theorem resolve_video_sound (q : string) (s : Service) :
  _repo (resolve_video q s).1 = _repo s
  ∧ _vectorstore (resolve_video q s).1 = _vectorstore s
  ∧ (∃ log, calls (resolve_video q s).1 = calls s ++ log
            ∧ Forall (λ c, c = RepoListAll ∨ ∃ id, c = RepoGet id) log)
  ∧ match (resolve_video q s).2 with
    | Ok found =>
        ∃ v, found = Some v ∧ get (video_id v) (_repo s) = Some v
    | Raise e =>
        ∃ msg, e = VideoNotFoundError msg ∨ e = AmbiguousVideoError msg
               ∨ e = ValueError msg
    end.
Proof.
  clear parse_video_id now classify _fetch_info available.
  assert (∀ m, m ∈ list_all (_repo s) →
               ∃ v, get (video_id m) (_repo s) = Some v
                    ∧ get (video_id v) (_repo s) = Some v) as Hlisted.
  { intros m (row & Hrow & _ & Hget)%get_listed. eexists. split; [done|].
    simpl. exact Hget. }
  destruct (_repo s !! q) as [row|] eqn:Hq.
  - unfold resolve_video. run. unfold get. rewrite Hq. simpl.
    split_and!; [done|done| |].
    + exists [RepoGet q]. split; [done|]. reads.
    + eexists. split; [done|]. simpl. by rewrite Hq.
  - destruct (Py.isdigit q) eqn:Hdig.
    + destruct (int q) as [n|e] eqn:Hint.
      * rewrite (resolve_video_tier2 q s n Hq Hdig Hint). simpl.
        case_bool_decide as Hn.
        -- destruct (list_all (_repo s) !! Z.to_nat (n - 1)) as [m|] eqn:Hm.
           ++ simpl. destruct (Hlisted m) as (v & -> & Hv).
              { by eapply list_elem_of_lookup_2. }
              split_and!; [done|done| |by exists v].
              exists [RepoGet q; RepoListAll; RepoGet (video_id m)].
              split; [simpl; by rewrite <-?app_assoc|]. reads.
           ++ apply lookup_ge_None in Hm. lia.
        -- simpl. split_and!; [done|done| |eauto].
           exists [RepoGet q; RepoListAll]. split; [simpl; by rewrite <-?app_assoc|].
           reads.
      * apply int_raises in Hint as Hint'. subst e.
        unfold resolve_video. run. unfold get.
        rewrite Hq, Hdig, Hint. simpl.
        split_and!; [done|done| |eauto].
        exists [RepoGet q; RepoListAll]. split; [simpl; by rewrite <-?app_assoc|].
        reads.
    + rewrite (resolve_video_tier3 q s Hq Hdig). simpl.
      destruct (filter _ _) as [|m [|m' ms]] eqn:Hf; simpl.
      * split_and!; [done|done| |eauto].
        exists [RepoGet q; RepoListAll]. split; [simpl; by rewrite <-?app_assoc|].
        reads.
      * destruct (Hlisted m) as (v & -> & Hv).
        { assert (m ∈ filter (λ v, is_match (Py.lower q) v)
                        (list_all (_repo s))) as Hin
            by (rewrite Hf; apply list_elem_of_here).
          by apply list_elem_of_filter in Hin as [_ ?]. }
        split_and!; [done|done| |by exists v].
        exists [RepoGet q; RepoListAll; RepoGet (video_id m)].
        split; [simpl; by rewrite <-?app_assoc|]. reads.
      * split_and!; [done|done| |eauto].
        exists [RepoGet q; RepoListAll]. split; [simpl; by rewrite <-?app_assoc|].
        reads.
Qed.

Lemma contains_empty (s : string) : Py.contains "" s = true.
Proof. by destruct s. Qed.

(** X13: the empty query, when it is no stored identifier, matches every
    entity: it resolves to the only entity of a library of one, is
    ambiguous in a larger library, and finds nothing in an empty one. *)
Theorem resolve_video_empty_query (s : Service) :
  _repo s !! "" = None →
  filter (λ v, is_match (Py.lower "") v) (list_all (_repo s))
  = list_all (_repo s)
  ∧ (size (_repo s) = 0 →
       (resolve_video "" s).2
       = Raise (VideoNotFoundError "No video matching: "))
  ∧ (size (_repo s) = 1 →
       ∃ m, list_all (_repo s) = [m]
            ∧ (resolve_video "" s).2 = Ok (get (video_id m) (_repo s)))
  ∧ (1 < size (_repo s) →
       ∃ msg, (resolve_video "" s).2 = Raise (AmbiguousVideoError msg)).
Proof.
  clear parse_video_id now classify _fetch_info available.
  intros Hq.
  assert (filter (λ v, is_match (Py.lower "") v) (list_all (_repo s))
          = list_all (_repo s)) as Hall.
  { induction (list_all (_repo s)) as [|v l IH]; [done|].
    rewrite filter_cons_True, IH; [done|].
    unfold is_match. simpl. by rewrite contains_empty. }
  split; [done|].
  pose proof (resolve_video_tier3 "" s Hq eq_refl) as Hres.
  cbv zeta in Hres. rewrite Hall in Hres. rewrite Hres.
  rewrite <-length_list_all.
  destruct (list_all (_repo s)) as [|m [|m' ms]]; simpl;
    split_and!; intros; try lia; eauto.
Qed.

(** X14: a query of digits that [isdigit] accepts but that are not all
    decimal, a superscript two for one, makes [int] raise: the resolver
    ends in [ValueError], after one [get] and one [list_all]. *)
Theorem resolve_video_non_decimal_digits (q : string) (s : Service) :
  Py.isdigit q = true → Py.all_chars Py.is_decimal q = false →
  _repo s !! q = None →
  ∃ msg,
    resolve_video q s
    = (logged RepoListAll (logged (RepoGet q) s), Raise (ValueError msg)).
Proof.
  intros Hdig Hdec Hq. exists q.
  unfold resolve_video. run. unfold get.
  by rewrite Hq, Hdig, (int_non_decimal q Hdec).
Qed.

(** X15: [add_video] stops before the first write when the URL has no
    identifier (the state is untouched and no collaborator is called) and
    when the download fails (store and index are as before). *)
Theorem add_video_fails_before_save (url : string) (s : Service) :
  (∀ e, parse_video_id url = Raise e → add_video url s = (s, Raise e))
  ∧ (∀ id e,
       parse_video_id url = Ok id → _repo s !! id = None →
       _fetch_info url = Raise e →
       ∃ s',
         add_video url s = (s', Raise e)
         ∧ _repo s' = _repo s
         ∧ _vectorstore s' = _vectorstore s
         ∧ calls s' = calls s ++ [RepoExists id; ExtractorExtract url]).
Proof.
  split.
  - intros e He. unfold add_video. run. by rewrite He.
  - intros id e Hid Hrow He. unfold add_video. run. rewrite Hid. simpl.
    rewrite (exists_None _ _ Hrow), He. simpl.
    eexists. split; [reflexivity|]. simpl. by rewrite <-app_assoc.
Qed.

(** X16: [add_video] is not atomic: when indexing raises, the error reaches
    the caller with the record already stored, untagged, and the
    classifier not yet asked; adding the same URL again is then refused as
    a duplicate. *)
Theorem add_video_not_atomic (url id : string) (s : Service) (info : Info)
    (vs : VS) (e : exn) :
  parse_video_id url = Ok id → _repo s !! id = None →
  _fetch_info url = Ok info → _vectorstore s = Some vs →
  info_transcript info ≠ [] →
  (index_video id (info_transcript info) vs).2 = Raise e →
  ∃ s',
    add_video url s = (s', Raise e)
    ∧ get id (_repo s')
      = Some {| video_id := id; title := info_title info;
                description := info_description info;
                channel := info_channel info;
                duration := info_duration info;
                thumbnail_url := info_thumbnail info;
                chapters := info_chapters info;
                transcript := info_transcript info; tags := [];
                added_at := now |}
    ∧ _vectorstore s' = Some (index_video id (info_transcript info) vs).1
    ∧ calls s' = calls s ++ [RepoExists id; ExtractorExtract url;
                             RepoSave id; VsIndexVideo id]
    ∧ ∃ msg,
        add_video url s'
        = (logged (RepoExists id) s', Raise (VideoAlreadyExistsError msg)).
Proof.
  intros Hid Hrow Hinfo Hvs Hne Hidx.
  unfold add_video. run. rewrite Hid. simpl.
  rewrite (exists_None _ _ Hrow), Hinfo. simpl. rewrite Hvs.
  destruct (info_transcript info) as [|seg segs] eqn:Ht; [done|].
  simpl. destruct (index_video id (seg :: segs) vs) as [vs' r].
  simpl in Hidx. subst r. simpl.
  eexists. split; [reflexivity|]. simpl.
  assert (save {| video_id := id; title := info_title info;
                  description := info_description info;
                  channel := info_channel info;
                  duration := info_duration info;
                  thumbnail_url := info_thumbnail info;
                  chapters := info_chapters info;
                  transcript := seg :: segs; tags := [];
                  added_at := now |} (_repo s) !! id
          = Some (excluded {| video_id := id; title := info_title info;
                  description := info_description info;
                  channel := info_channel info;
                  duration := info_duration info;
                  thumbnail_url := info_thumbnail info;
                  chapters := info_chapters info;
                  transcript := seg :: segs; tags := [];
                  added_at := now |})) as Hsaved.
  { unfold save. simpl. rewrite Hrow. by rewrite lookup_insert_eq. }
  split_and!.
  - unfold get. by rewrite Hsaved.
  - done.
  - by rewrite <-!app_assoc.
  - eexists. by rewrite (exists_Some _ _ _ Hsaved).
Qed.


Lemma save_new (v : Video) (t : gmap string Row) :
  t !! video_id v = None → save v t = <[video_id v := excluded v]> t.
Proof. intros Hrow. unfold save. by rewrite Hrow. Qed.

Lemma save_twice (v v' : Video) (t : gmap string Row) :
  t !! video_id v = None → video_id v' = video_id v →
  save v' (save v t) = <[video_id v := do_update (excluded v) (excluded v')]> t.
Proof.
  intros Hrow Hid. rewrite (save_new v t Hrow). unfold save. rewrite Hid.
  rewrite lookup_insert_eq. by rewrite insert_insert_eq.
Qed.

Lemma add_video_repo (url id : string) (s : Service) :
  parse_video_id url = Ok id → _repo s !! id = None →
  _repo (add_video url s).1 = _repo s
  ∨ ∃ row, _repo (add_video url s).1 = <[id := row]> (_repo s).
Proof.
  intros Hid Hrow. unfold add_video. run. rewrite Hid. simpl.
  rewrite (exists_None _ _ Hrow).
  destruct (_fetch_info url) as [info|e]; simpl; [|by left].
  right.
  destruct (_vectorstore s) as [vs|];
    [destruct (info_transcript info) as [|seg segs]|]; simpl;
    try destruct (index_video id _ vs) as [vs' [n|e]]; simpl;
    destruct available; simpl;
    try destruct (classify _ _ _) as [ts|[]]; simpl;
    rewrite ?save_twice, ?save_new by done; eauto.
Qed.

(** X18: on every path, success or error, [add_video] leaves the rows of all
    other identifiers as they were. *)
Theorem add_video_touches_one_row (url other : string) (s : Service) :
  parse_video_id url ≠ Ok other →
  _repo (add_video url s).1 !! other = _repo s !! other.
Proof.
  intros Hother.
  destruct (parse_video_id url) as [id|e] eqn:Hid.
  - destruct (_repo s !! id) as [row|] eqn:Hrow.
    + unfold add_video. run. rewrite Hid. simpl.
      by rewrite (exists_Some _ _ _ Hrow).
    + destruct (add_video_repo url id s Hid Hrow) as [->|[row ->]]; [done|].
      apply lookup_insert_ne. congruence.
  - unfold add_video. run. by rewrite Hid.
Qed.

(** X19: removing what [add_video] has just added gives back the store as it
    was before the add, whether the add returned, or raised after its
    write, or raised before it. *)
Theorem add_video_then_remove_video (url id : string) (s : Service) :
  parse_video_id url = Ok id → _repo s !! id = None →
  _repo (remove_video id (add_video url s).1).1 = _repo s.
Proof.
  intros Hid Hrow.
  destruct (add_video_repo url id s Hid Hrow) as [Hr|[row Hr]].
  - unfold remove_video. run. rewrite Hr, (exists_None _ _ Hrow). simpl.
    exact Hr.
  - unfold remove_video. run. rewrite Hr.
    rewrite (exists_Some id _ row) by apply lookup_insert_eq. simpl.
    assert (delete id (<[id := row]> (_repo s)) = _repo s) as Hdel.
    { unfold delete. by rewrite delete_insert_id. }
    destruct (_vectorstore (add_video url s).1) as [vs|]; simpl.
    + destruct (delete_video id vs) as [vs' r]. simpl. by rewrite Hr.
    + by rewrite Hr.
Qed.

(** X20: [classify_video] looks the entity up first: an absent identifier
    raises [VideoNotFoundError] whether or not an LLM is configured;
    without one, a stored identifier raises [RuntimeError].  Neither path
    writes or asks the classifier. *)
Theorem classify_video_precedence (id : string) (s : Service) :
  (_repo s !! id = None →
     classify_video id s
     = (logged (RepoGet id) s,
        Raise (VideoNotFoundError ("Video not found: " +:+ id))))
  ∧ (is_Some (_repo s !! id) → available = false →
       classify_video id s
       = (logged (RepoGet id) s,
          Raise (RuntimeError
                   "Classification requires an LLM. Set an API key."))).
Proof.
  split.
  - intros Hrow. unfold classify_video, get_info. run. unfold get.
    by rewrite Hrow.
  - intros [row Hrow] Hav. unfold classify_video, get_info. run.
    unfold get. rewrite Hrow. simpl. by rewrite Hav.
Qed.

(** X21: once [remove_video] has run on a stored identifier, the identifier is
    gone for every later call even if the index purge raised:
    [get_info] and a second [remove_video] raise [VideoNotFoundError],
    and that second call never reaches the index. *)
Theorem remove_video_twice (id : string) (s : Service) :
  is_Some (_repo s !! id) →
  let s1 := (remove_video id s).1 in
  get_info id s1
  = (logged (RepoGet id) s1,
     Raise (VideoNotFoundError ("Video not found: " +:+ id)))
  ∧ remove_video id s1
    = (logged (RepoExists id) s1,
       Raise (VideoNotFoundError ("Video not found: " +:+ id))).
Proof.
  intros [row Hrow] s1.
  assert (_repo s1 !! id = None) as Hgone.
  { unfold s1, remove_video. run. rewrite (exists_Some _ _ _ Hrow). simpl.
    destruct (_vectorstore s) as [vs|]; simpl;
      [destruct (delete_video id vs) as [vs' r]; simpl|];
      unfold delete; apply lookup_delete_eq. }
  split.
  - unfold get_info. run. unfold get. by rewrite Hgone.
  - unfold remove_video. run. by rewrite (exists_None _ _ Hgone).
Qed.

End service_edges.

(** *** [dict.fromkeys] *)

Section fromkeys.

Lemma fromkeys_from (seen keys : list string) :
  foldl (λ seen k, if bool_decide (k ∈ seen) then seen else seen ++ [k])
    seen keys
  = seen ++ filter (λ k, k ∉ seen) (Py.fromkeys keys).
Proof.
  clear parse_video_id now classify _fetch_info available.
  unfold Py.fromkeys. revert seen.
  induction keys as [|x keys IH]; intros seen.
  - by rewrite app_nil_r.
  - cbn [foldl].
    rewrite (bool_decide_eq_false_2 (x ∈ [])) by apply not_elem_of_nil.
    simpl ([] ++ [x]). rewrite (IH [x]). simpl ([x] ++ _).
    case_bool_decide as Hx.
    + rewrite IH. f_equal. rewrite filter_cons_False by (by intros ?).
      rewrite list_filter_filter. apply list_filter_iff.
      intros k. split; [|by intros []]. intros Hk. split; [done|].
      intros ->%list_elem_of_singleton. done.
    + rewrite IH, <-app_assoc. f_equal.
      rewrite filter_cons_True by done.
      simpl. f_equal. rewrite list_filter_filter. apply list_filter_iff.
      intros k. rewrite elem_of_app, list_elem_of_singleton. tauto.
Qed.

Lemma fromkeys_cons (x : string) (keys : list string) :
  Py.fromkeys (x :: keys) = x :: filter (λ k, k ≠ x) (Py.fromkeys keys).
Proof.
  unfold Py.fromkeys at 1. cbn [foldl].
  rewrite (bool_decide_eq_false_2 (x ∈ [])) by apply not_elem_of_nil.
  simpl ([] ++ [x]). rewrite fromkeys_from. simpl.
  f_equal. apply list_filter_iff. intros k.
  by rewrite list_elem_of_singleton.
Qed.

Lemma elem_of_fromkeys (x : string) (keys : list string) :
  x ∈ Py.fromkeys keys ↔ x ∈ keys.
Proof.
  clear parse_video_id now classify _fetch_info available.
  induction keys as [|y keys IH]; [done|].
  rewrite fromkeys_cons, !elem_of_cons, list_elem_of_filter, IH.
  destruct (decide (x = y)); tauto.
Qed.

Lemma NoDup_fromkeys (keys : list string) : NoDup (Py.fromkeys keys).
Proof.
  induction keys as [|y keys IH]; [constructor|].
  rewrite fromkeys_cons. constructor.
  - rewrite list_elem_of_filter. by intros [? _].
  - by apply NoDup_filter.
Qed.

End fromkeys.

(** *** Search, frames, reports and discovery *)

Section query_methods.
Import SQLiteVideoRepository.

Context {vector_search : VectorSearch VS}.
Variable extract_frame : string → float → result string.
Variable generate_single : Video → option string → result report.Report.
Variable generate_multi : list Video → string → result report.Report.
Variable to_html : report.Report → string.
Variable to_markdown : report.Report → string.
Variable discover : string → result discovery.DiscoveryResult.

Ltac run :=
  unfold mbind, M_bind, mret, M_ret, lift, raise, vectorstore,
    repo_get, repo_list_all, repo_exists;
  simpl.

Lemma logged_all_app (cs cs' : list call) (s : Service) :
  logged_all (cs ++ cs') s = logged_all cs' (logged_all cs s).
Proof. apply foldl_app. Qed.

Lemma logged_all_fields (cs : list call) (s : Service) :
  _repo (logged_all cs s) = _repo s
  ∧ _vectorstore (logged_all cs s) = _vectorstore s
  ∧ calls (logged_all cs s) = calls s ++ cs.
Proof.
  revert s. induction cs as [|c cs IH]; intros s; simpl.
  - by rewrite app_nil_r.
  - destruct (IH (logged c s)) as (-> & -> & ->). simpl.
    by rewrite <-app_assoc.
Qed.

Lemma get_info_present (id : string) (s : Service) (row : Row) :
  _repo s !! id = Some row →
  get_info id s = (logged (RepoGet id) s, Ok (_row_to_video id row true)).
Proof. intros Hrow. unfold get_info. run. unfold get. by rewrite Hrow. Qed.

Lemma get_info_absent (id : string) (s : Service) :
  _repo s !! id = None →
  get_info id s
  = (logged (RepoGet id) s,
     Raise (VideoNotFoundError ("Video not found: " +:+ id))).
Proof. intros Hrow. unfold get_info. run. unfold get. by rewrite Hrow. Qed.

Lemma get_infos_present (ids : list string) (s : Service) :
  Forall (λ id, is_Some (_repo s !! id)) ids →
  get_infos ids s
  = (logged_all (RepoGet <$> ids) s,
     Ok (omap (λ id, get id (_repo s)) ids)).
Proof.
  revert s. induction ids as [|id ids IH]; intros s Hall; [done|].
  apply Forall_cons in Hall as [[row Hrow] Hall].
  cbn [get_infos]. unfold mbind, M_bind at 1.
  rewrite (get_info_present id s row Hrow).
  unfold M_bind at 1. rewrite (IH (logged (RepoGet id) s)) by done.
  simpl. unfold get at 2. by rewrite Hrow.
Qed.

Lemma get_infos_missing (present : list string) (missing : string)
    (rest : list string) (s : Service) :
  Forall (λ id, is_Some (_repo s !! id)) present →
  _repo s !! missing = None →
  get_infos (present ++ missing :: rest) s
  = (logged_all (RepoGet <$> present ++ [missing]) s,
     Raise (VideoNotFoundError ("Video not found: " +:+ missing))).
Proof.
  revert s. induction present as [|id ids IH]; intros s Hall Hmiss.
  - cbn [get_infos app]. unfold mbind, M_bind at 1.
    by rewrite (get_info_absent missing s Hmiss).
  - apply Forall_cons in Hall as [[row Hrow] Hall].
    cbn [get_infos app]. unfold mbind, M_bind at 1.
    rewrite (get_info_present id s row Hrow).
    unfold M_bind at 1. by rewrite (IH (logged (RepoGet id) s)).
Qed.

Lemma get_infos_reads (ids : list string) (s : Service) :
  _repo (get_infos ids s).1 = _repo s
  ∧ _vectorstore (get_infos ids s).1 = _vectorstore s.
Proof.
  revert s. induction ids as [|id ids IH]; intros s; [done|].
  cbn [get_infos]. unfold mbind, M_bind at 1.
  unfold get_info. run.
  destruct (get id (_repo s)) as [v|]; simpl; [|done].
  unfold M_bind. specialize (IH (logged (RepoGet id) s)).
  destruct (get_infos ids (logged (RepoGet id) s)) as [s' [vs|e]];
    simpl in *; done.
Qed.

(** X22: none of the query methods writes: after [list_videos], [get_info],
    [search], [get_frame], [get_frame_by_query], [generate_report],
    [generate_report_from_query], [synthesize] and [discover_videos],
    whatever they return or raise, store and index are as before. *)
Theorem query_methods_read_only (s : Service) (id q topic fmt : string)
    (scope : option string) (tags : option (list string)) (limit : Z)
    (t : float) (focus : option string) (ids : list string) :
  let unchanged (s' : Service) :=
    _repo s' = _repo s ∧ _vectorstore s' = _vectorstore s in
  unchanged (list_videos s).1
  ∧ unchanged (get_info id s).1
  ∧ unchanged (service_search q scope tags limit s).1
  ∧ unchanged (get_frame extract_frame id t s).1
  ∧ unchanged (get_frame_by_query extract_frame id q s).1
  ∧ unchanged (generate_report generate_single to_html to_markdown
                 id focus fmt s).1
  ∧ unchanged (generate_report_from_query generate_multi to_html
                 to_markdown q tags fmt s).1
  ∧ unchanged (synthesize generate_multi to_html to_markdown
                 ids topic fmt s).1
  ∧ unchanged (discover_videos discover topic s).1.
Proof.
  clear parse_video_id now classify _fetch_info.
  intros unchanged. unfold unchanged. split_and!.
  1,2: done.
  1,2: unfold get_info; run; by destruct (get id (_repo s)).
  1,2: unfold service_search; run;
    by destruct (_vectorstore s) as [vs|] eqn:Hvs.
  1,2: unfold get_frame; run; by destruct (exists_ id (_repo s)).
  1,2: unfold get_frame_by_query; run;
    destruct (exists_ id (_repo s)); simpl; [|done];
    destruct (_vectorstore s) as [vs|] eqn:Hvs; simpl; [|done];
    destruct (search q (Some id) None 1 vs) as [[|best rest]|e]; simpl;
      [done| |done];
    by destruct (extract_frame id (result_start best)).
  1,2: unfold generate_report; destruct available; simpl; [|done];
    unfold get_info; run;
    destruct (get id (_repo s)) as [v|]; simpl; [|done];
    by destruct (generate_single v focus).
  1,2: unfold generate_report_from_query; destruct available; simpl;
    [|done];
    run; destruct (_vectorstore s) as [vs|] eqn:Hvs; simpl; [|done];
    destruct (search q None tags 20 vs) as [[|r rs]|e]; simpl;
      [done| |done];
    pose proof (get_infos_reads
                  (Py.fromkeys (result_video_id <$> r :: rs)) s) as Hr;
    destruct (get_infos _ s) as [s' [vs'|e]]; simpl in *;
      [|by destruct Hr; congruence];
    destruct (generate_multi vs' q); simpl; by destruct Hr; congruence.
  1,2: unfold synthesize; destruct available; simpl; [|done]; run;
    pose proof (get_infos_reads ids s) as Hr;
    destruct (get_infos ids s) as [s' [vs'|e]]; simpl in *; [|by destruct Hr];
    destruct (generate_multi vs' topic); by destruct Hr.
  1,2: unfold discover_videos; by destruct available.
Qed.

(** X23: without an LLM the report and discovery methods raise
    [RuntimeError] before anything else: the state is untouched and the
    store is not even asked, so identifiers that are not stored raise
    [RuntimeError] too, not [VideoNotFoundError]. *)
Theorem report_methods_need_llm (s : Service) (id q topic fmt : string)
    (tags : option (list string)) (focus : option string)
    (ids : list string) :
  available = false →
  (∃ msg, generate_report generate_single to_html to_markdown
            id focus fmt s = (s, Raise (RuntimeError msg)))
  ∧ (∃ msg, generate_report_from_query generate_multi to_html
              to_markdown q tags fmt s = (s, Raise (RuntimeError msg)))
  ∧ (∃ msg, synthesize generate_multi to_html to_markdown
              ids topic fmt s = (s, Raise (RuntimeError msg)))
  ∧ (∃ msg, discover_videos discover topic s
            = (s, Raise (RuntimeError msg))).
Proof.
  intros Hav.
  unfold generate_report, generate_report_from_query, synthesize,
    discover_videos.
  rewrite Hav. simpl. split_and!; by eexists.
Qed.

(** X24: [synthesize] reads the identifiers in the order given.  At the first
    one that is not stored it raises [VideoNotFoundError] for it, having
    asked only for the identifiers up to it and without calling the
    report builder.  When all are stored the builder gets the full
    entities in that order, repeated identifiers repeated, and the
    rendering is HTML only for the format string [html]. *)
Theorem synthesize_reads_in_order (s : Service) (topic fmt : string) :
  available = true →
  (∀ present missing rest,
     Forall (λ id, is_Some (_repo s !! id)) present →
     _repo s !! missing = None →
     synthesize generate_multi to_html to_markdown
       (present ++ missing :: rest) topic fmt s
     = (logged_all (RepoGet <$> present ++ [missing]) s,
        Raise (VideoNotFoundError ("Video not found: " +:+ missing))))
  ∧ (∀ ids,
       Forall (λ id, is_Some (_repo s !! id)) ids →
       let videos := omap (λ id, get id (_repo s)) ids in
       video_id <$> videos = ids
       ∧ synthesize generate_multi to_html to_markdown ids topic fmt s
         = (logged_all (RepoGet <$> ids) s,
            match generate_multi videos topic with
            | Ok r => Ok (r, if bool_decide (fmt = "html")
                             then to_html r else to_markdown r)
            | Raise e => Raise e
            end)).
Proof.
  clear parse_video_id now classify _fetch_info.
  intros Hav. split.
  - intros present missing rest Hall Hmiss. unfold synthesize.
    rewrite Hav. simpl. unfold mbind, M_bind at 1.
    by rewrite (get_infos_missing present missing rest s Hall Hmiss).
  - intros ids Hall videos. split.
    + unfold videos. clear -Hall.
      induction ids as [|id ids IH]; [done|].
      apply Forall_cons in Hall as [[row Hrow] Hall]. simpl.
      unfold get at 1. rewrite Hrow. simpl. f_equal. by apply IH.
    + unfold synthesize. rewrite Hav. simpl. unfold mbind, M_bind at 1.
      rewrite (get_infos_present ids s Hall). fold videos.
      unfold M_bind, lift, mret, M_ret, render.
      by destruct (generate_multi videos topic).
Qed.

(** X25: [generate_report_from_query] reports on each video once, however
    many of the (non-empty) hits fall in it, in the order of each video's
    first hit.  When all of them are stored the builder gets the full
    entities; a hit whose video is not stored, a fragment left in the
    index, makes the whole report raise [VideoNotFoundError]. *)
Theorem generate_report_from_query_by_video (s : Service) (vs : VS)
    (q fmt : string) (tags : option (list string))
    (hits : list SearchResult) :
  available = true → _vectorstore s = Some vs →
  search q None tags 20 vs = Ok hits → hits ≠ [] →
  let ids := Py.fromkeys (result_video_id <$> hits) in
  NoDup ids
  ∧ (∀ id, id ∈ ids ↔ ∃ hit, hit ∈ hits ∧ result_video_id hit = id)
  ∧ (∀ hit rest, hits = hit :: rest →
       ids = result_video_id hit
             :: filter (λ id, id ≠ result_video_id hit)
                  (Py.fromkeys (result_video_id <$> rest)))
  ∧ (Forall (λ id, is_Some (_repo s !! id)) ids →
       generate_report_from_query generate_multi to_html to_markdown
         q tags fmt s
       = (logged_all (RepoGet <$> ids) s,
          match generate_multi (omap (λ id, get id (_repo s)) ids) q with
          | Ok r => Ok (r, if bool_decide (fmt = "html")
                           then to_html r else to_markdown r)
          | Raise e => Raise e
          end))
  ∧ (∀ present missing rest,
       ids = present ++ missing :: rest →
       Forall (λ id, is_Some (_repo s !! id)) present →
       _repo s !! missing = None →
       generate_report_from_query generate_multi to_html to_markdown
         q tags fmt s
       = (logged_all (RepoGet <$> present ++ [missing]) s,
          Raise (VideoNotFoundError ("Video not found: " +:+ missing)))).
Proof.
  clear parse_video_id now classify _fetch_info.
  intros Hav Hvs Hsearch Hne ids.
  assert (generate_report_from_query generate_multi to_html to_markdown
            q tags fmt s
          = match get_infos ids s with
            | (s', Ok videos) =>
                (s', match generate_multi videos q with
                     | Ok r => Ok (r, if bool_decide (fmt = "html")
                                      then to_html r else to_markdown r)
                     | Raise e => Raise e
                     end)
            | (s', Raise e) => (s', Raise e)
            end) as Hrun.
  { unfold generate_report_from_query. rewrite Hav. simpl. run.
    rewrite Hvs. simpl. rewrite Hsearch. simpl.
    destruct hits as [|hit rest]; [done|]. fold ids.
    destruct (get_infos ids s) as [s' [videos|e]]; [|done].
    unfold render. by destruct (generate_multi videos q). }
  split_and!.
  - apply NoDup_fromkeys.
  - intros id. unfold ids. rewrite elem_of_fromkeys, list_elem_of_fmap.
    split; intros (hit & ? & ?); by exists hit.
  - intros hit rest ->. apply fromkeys_cons.
  - intros Hall. by rewrite Hrun, (get_infos_present ids s Hall).
  - intros present missing rest Hids Hall Hmiss.
    by rewrite Hrun, Hids,
      (get_infos_missing present missing rest s Hall Hmiss).
Qed.

(** X26: [get_frame_by_query] looks the identifier up before it looks at the
    index: an identifier that is not stored raises [VideoNotFoundError]
    even when no index is configured.  For a stored one it asks the index
    for a single hit within that video; no hit raises
    [VideoNotFoundError] although the video is stored, and a hit gives
    the frame of the requested video at the start of the hit, with the
    hit's times, text and score. *)
Theorem get_frame_by_query_takes_best_hit (s : Service) (id q : string) :
  (_repo s !! id = None →
     get_frame_by_query extract_frame id q s
     = (logged (RepoExists id) s,
        Raise (VideoNotFoundError ("Video not found: " +:+ id))))
  ∧ (∀ vs, is_Some (_repo s !! id) → _vectorstore s = Some vs →
       get_frame_by_query extract_frame id q s
       = (logged (RepoExists id) s,
          match search q (Some id) None 1 vs with
          | Raise e => Raise e
          | Ok [] =>
              Raise (VideoNotFoundError
                       ("No transcript match for query: " +:+ q))
          | Ok (best :: _) =>
              match extract_frame id (result_start best) with
              | Raise e => Raise e
              | Ok frame_path =>
                  Ok {| match_path := frame_path;
                        match_start := result_start best;
                        match_end := result_end best;
                        match_text := result_text best;
                        match_score := result_score best |}
              end
          end)).
Proof.
  clear parse_video_id now classify _fetch_info.
  split.
  - intros Hrow. unfold get_frame_by_query. run.
    by rewrite (exists_None _ _ Hrow).
  - intros vs [row Hrow] Hvs. unfold get_frame_by_query. run.
    rewrite (exists_Some _ _ _ Hrow). simpl. rewrite Hvs. simpl.
    destruct (search q (Some id) None 1 vs) as [[|best rest]|e]; simpl;
      [done| |done].
    by destruct (extract_frame id (result_start best)).
Qed.

End query_methods.

End McpTubeService.

(** * Examples on the sample library *)

Section examples.
Import SQLiteVideoRepository chromadb ChromaVectorStore.

#[local] Abbreviation service_on t :=
  ({| _repo := t; _vectorstore := Some Sample.collection; calls := [] |}
     : @Service Collection).




(** The identifier [2] is all digits and part of the title [Part 2];
    position 2 of the listing is B, yet [resolve_video] returns D after a
    single [get]. *)
Lemma C4_exact_identifier_first_witness :
  Py.isdigit "2" = true
  ∧ Py.contains "2" (Py.lower (title Sample.D)) = true
  ∧ video_id <$> list_all (save Sample.D Sample.library) !! 1
    = Some "bbbbbbbbbbb"
  ∧ save Sample.D Sample.library !! "2" = Some (excluded Sample.D)
  ∧ resolve_video "2" (service_on (save Sample.D Sample.library))
    = (logged (RepoGet "2") (service_on (save Sample.D Sample.library)),
       Ok (Some Sample.D)).
Proof.
  split_and!; [reflexivity..|].
  rewrite (C4_exact_identifier_first "2" _ (excluded Sample.D)); reflexivity.
Defined.

(** With a vector store whose purge raises, removing A raises too, after
    the record is gone; an unknown identifier is rejected. *)
Lemma C5_remove_video_witness :
  let s : @Service () :=
    {| _repo := Sample.library; _vectorstore := Some (); calls := [] |} in
  is_Some (Sample.library !! "aaaaaaaaaaa")
  ∧ Sample.library !! "zzzzzzzzzzz" = None
  ∧ (@remove_video () Sample.unreachable "aaaaaaaaaaa" s).2
    = Raise (EngineError "unreachable")
  ∧ _repo (@remove_video () Sample.unreachable "aaaaaaaaaaa" s).1
      !! "aaaaaaaaaaa" = None
  ∧ calls (@remove_video () Sample.unreachable "aaaaaaaaaaa" s).1
    = [RepoExists "aaaaaaaaaaa"; RepoDelete "aaaaaaaaaaa";
       VsDeleteVideo "aaaaaaaaaaa"]
  ∧ (@remove_video () Sample.unreachable "zzzzzzzzzzz" s).2
    = Raise (VideoNotFoundError "Video not found: zzzzzzzzzzz").
Proof.
  intros s.
  assert (is_Some (Sample.library !! "aaaaaaaaaaa")) as Hin
    by (eexists; reflexivity).
  destruct (@C5_remove_video () Sample.unreachable "aaaaaaaaaaa" s)
    as [_ Hpresent].
  destruct (Hpresent Hin) as (s' & r & Hres & _ & Hgone & Hr & _ & Hcalls).
  destruct (@C5_remove_video () Sample.unreachable "zzzzzzzzzzz" s)
    as [Habsent _].
  destruct (Habsent eq_refl) as (s'' & Hres' & _).
  rewrite Hres, Hres'. simpl in *. subst r. by split_and!.
Defined.

(** Adding the URL of A again is rejected after the existence check. *)
Lemma C6_duplicate_add_rejected_witness :
  Sample.parse_video_id (Sample.url_of "aaaaaaaaaaa") = Ok "aaaaaaaaaaa"
  ∧ Sample.library !! "aaaaaaaaaaa" = Some (excluded Sample.A)
  ∧ (add_video Sample.parse_video_id Sample._fetch_info
       "2026-01-01T00:00:00+00:00" true Sample.classify
       (Sample.url_of "aaaaaaaaaaa") (service_on Sample.library)).2
    = Raise (VideoAlreadyExistsError
               "Video already in library: aaaaaaaaaaa. Use remove_video() first to re-ingest.")
  ∧ calls (add_video Sample.parse_video_id Sample._fetch_info
             "2026-01-01T00:00:00+00:00" true Sample.classify
             (Sample.url_of "aaaaaaaaaaa") (service_on Sample.library)).1
    = [RepoExists "aaaaaaaaaaa"].
Proof.
  split_and!; [reflexivity|reflexivity|..];
    destruct (C6_duplicate_add_rejected Sample.parse_video_id
                Sample._fetch_info "2026-01-01T00:00:00+00:00" true
                Sample.classify (Sample.url_of "aaaaaaaaaaa") "aaaaaaaaaaa"
                (service_on Sample.library) (excluded Sample.A)
                eq_refl eq_refl) as (s' & Hres & _ & _ & Hcalls);
    rewrite Hres; [reflexivity | exact Hcalls].
Defined.

(** A fresh video whose classification fails is added without tags;
    explicit classification of B fails with the classifier's error;
    explicit classification of A replaces its tag [old]. *)
Lemma C8_classification_failure_policy_witness :
  let add := add_video Sample.parse_video_id Sample._fetch_info
               "2026-01-01T00:00:00+00:00" true Sample.classify in
  let classify_video := classify_video (VS := Collection) true Sample.classify in
  Sample.library !! "ddddddddddd" = None
  ∧ tags Sample.A = ["old"]
  ∧ (∃ s' v,
       add (Sample.url_of "ddddddddddd") (service_on Sample.library)
       = (s', Ok v)
       ∧ tags v = [] ∧ get "ddddddddddd" (_repo s') = Some v)
  ∧ (classify_video "bbbbbbbbbbb" (service_on Sample.library)).2
    = Raise (LLMError "LLM request failed")
  ∧ (classify_video "aaaaaaaaaaa" (service_on Sample.library)).2
    = Ok ["AI"; "Tutorial"]
  ∧ tags <$> get "aaaaaaaaaaa"
               (_repo (classify_video "aaaaaaaaaaa"
                         (service_on Sample.library)).1)
    = Some ["AI"; "Tutorial"].
Proof.
  intros add classify_video.
  destruct (C8_classification_failure_policy (VS := Collection)
              Sample.parse_video_id Sample._fetch_info
              "2026-01-01T00:00:00+00:00" true Sample.classify)
    as (Hadd & Hfail & Hok).
  split_and!; [reflexivity|reflexivity|..].
  - destruct (Hadd (Sample.url_of "ddddddddddd") "ddddddddddd"
                (service_on Sample.library)
                {| info_title := "Fresh"; info_description := "";
                   info_channel := "New"; info_duration := 60;
                   info_thumbnail := ""; info_chapters := [];
                   info_transcript := [Sample.segment "hello";
                                       Sample.segment "world"] |}
                "LLM request failed")
      as (s' & Hres & Hget & _);
      [reflexivity|reflexivity|reflexivity|reflexivity
      |eexists; reflexivity|reflexivity|].
    eexists s', _. split; [exact Hres|]. split; [reflexivity|exact Hget].
  - destruct (Hfail "bbbbbbbbbbb" (service_on Sample.library)
                (excluded Sample.B) (LLMError "LLM request failed"))
      as (s' & Hres & _); [reflexivity..|].
    unfold classify_video. by rewrite Hres.
  - destruct (Hok "aaaaaaaaaaa" (service_on Sample.library)
                (excluded Sample.A) ["AI"; "Tutorial"])
      as (s' & Hres & _); [reflexivity..|].
    unfold classify_video. by rewrite Hres.
  - destruct (Hok "aaaaaaaaaaa" (service_on Sample.library)
                (excluded Sample.A) ["AI"; "Tutorial"])
      as (s' & Hres & Hget); [reflexivity..|].
    unfold classify_video. rewrite Hres. simpl. by rewrite Hget.
Defined.

(** Saving A again with another title, other tags and a later timestamp
    changes title and tags and keeps the timestamp of the first save. *)
Lemma C9_save_keeps_added_at_witness :
  let v := {| video_id := "aaaaaaaaaaa"; title := "Retitled";
              description := ""; channel := "EduCh"; duration := 60;
              thumbnail_url := ""; chapters := []; transcript := [];
              tags := ["AI"]; added_at := "2030-01-01T00:00:00+00:00" |} in
  Sample.library !! "aaaaaaaaaaa" = Some (excluded Sample.A)
  ∧ (title <$> get "aaaaaaaaaaa" (save v Sample.library),
     tags <$> get "aaaaaaaaaaa" (save v Sample.library),
     added_at <$> get "aaaaaaaaaaa" (save v Sample.library))
    = (Some "Retitled", Some ["AI"], Some "2025-01-01T00:00:00+00:00").
Proof.
  intros v. split; [reflexivity|].
  destruct (C9_save_keeps_added_at v Sample.library (excluded Sample.A))
    as (Hget & _); [reflexivity|].
  change (video_id v) with "aaaaaaaaaaa" in Hget. by rewrite Hget.
Defined.

(** 501 segments against a ceiling of 500: all 501 are stored, in a batch
    of 500 and a batch of 1. *)
Lemma C7_chunked_indexing_witness :
  max_batch_size Sample.collection = 500
  ∧ length (replicate 501 (Sample.segment "x")) = 501
  ∧ range 501 _BATCH_SIZE = [0; 500]
  ∧ ∃ c',
      index_video "v" (replicate 501 (Sample.segment "x")) Sample.collection
      = (c', Ok 501)
      ∧ size (owned_by "v" (records c')) = 501.
Proof.
  split_and!; [reflexivity..|].
  destruct (C7_chunked_indexing "v" (replicate 501 (Sample.segment "x"))
              Sample.collection)
    as (c' & Hres & _ & Hsize & _).
  - apply map_Forall_empty.
  - apply le_n.
  - discriminate.
  - by intros seg [-> _]%elem_of_replicate.
  - exists c'. split; [exact Hres | exact Hsize].
Defined.

(** Of [a], a blank and [b], two are stored, under positions 0 and 2. *)
Lemma C10_blank_segments_skipped_witness :
  ∃ c',
    index_video "v" [Sample.segment "a"; Sample.segment "  ";
                     Sample.segment " b "] Sample.collection
    = (c', Ok 2)
    ∧ fst <$> records c' !! "v_0" = Some "a"
    ∧ records c' !! "v_1" = None
    ∧ fst <$> records c' !! "v_2" = Some "b".
Proof.
  destruct (C10_blank_segments_skipped "v"
              [Sample.segment "a"; Sample.segment "  "; Sample.segment " b "]
              Sample.collection)
    as (c' & Hres & _).
  - apply map_Forall_empty.
  - apply le_n.
  - discriminate.
  - exists c'. split; [exact Hres|].
    apply (f_equal fst) in Hres. simpl in Hres. subst c'.
    by vm_compute.
Defined.

(** Indexing two segments and then one leaves the one. *)
Lemma C2_reindex_replaces_witness :
  let c1 := (index_video "v" [Sample.segment "a"; Sample.segment "b"]
               Sample.collection).1 in
  let c2 := (index_video "v" [Sample.segment "c"] c1).1 in
  size (owned_by "v" (records c1)) = 2
  ∧ size (owned_by "v" (records c2)) = 1
  ∧ fst <$> records c2 !! "v_0" = Some "c"
  ∧ records c2 !! "v_1" = None.
Proof.
  intros c1 c2.
  destruct (C2_reindex_replaces "v" [Sample.segment "a"; Sample.segment "b"]
              [Sample.segment "c"] Sample.collection)
    as (_ & Hsize & _).
  - apply map_Forall_empty.
  - apply le_n.
  - discriminate.
  - split_and!; [reflexivity|exact Hsize|reflexivity|reflexivity].
Defined.

(** C2 as stated fails when the second list is empty: the fragment of the
    first call is still there, one fragment where [len(s2)] is 0. *)
Lemma C2_counterexample :
  let c1 := (index_video "v" [Sample.segment "hello"] Sample.collection).1 in
  let c2 := (index_video "v" [] c1).1 in
  size (owned_by "v" (records c2)) = 1
  ∧ length ([] : list TranscriptSegment) = 0
  ∧ fst <$> records c2 !! "v_0" = Some "hello"
  ∧ ¬ (∀ (vid : string) (s1 s2 : list TranscriptSegment) (c : Collection),
         well_keyed c → _BATCH_SIZE ≤ max_batch_size c →
         size (owned_by vid
                 (records (index_video vid s2 (index_video vid s1 c).1).1))
         = length s2).
Proof.
  intros c1 c2. split_and!; [reflexivity..|].
  intros Hall.
  specialize (Hall "v" [Sample.segment "hello"] [] Sample.collection
                (map_Forall_empty _) (le_n _)).
  vm_compute in Hall. discriminate.
Qed.

End examples.

(** * Discovery: clustering through shared objects *)

Section discovery_properties.
Import discovery.
Implicit Types (store : gmap string DiscoveredVideo) (v : DiscoveredVideo).
Implicit Types (vid name : string) (ids refs : list string).
Implicit Types (response : list (string * list string)).

Lemma by_id_snoc (videos : list DiscoveredVideo) v :
  by_id (videos ++ [v]) = <[video_id v := v]> (by_id videos).
Proof. unfold by_id. by rewrite foldl_app. Qed.

Lemma by_id_lookup (videos : list DiscoveredVideo) vid v :
  by_id videos !! vid = Some v → v ∈ videos ∧ video_id v = vid.
Proof.
  induction videos as [|x videos IH] using rev_ind; [done|].
  rewrite by_id_snoc, elem_of_app, list_elem_of_singleton.
  intros [[<- <-]|[_ Hv]]%lookup_insert_Some; [by auto|].
  destruct (IH Hv). auto.
Qed.

Lemma assign_loop name ids store refs :
  (foldl (assign name) (store, refs) ids).2
  = refs ++ filter (λ vid, is_Some (store !! vid)) ids
  ∧ ∀ vid,
      (foldl (assign name) (store, refs) ids).1 !! vid
      = if bool_decide (vid ∈ ids) then set_cluster name <$> store !! vid
        else store !! vid.
Proof.
  revert store refs. induction ids as [|x ids IH]; intros store refs.
  - split; [by rewrite app_nil_r|]. intros vid.
    by rewrite bool_decide_eq_false_2 by apply not_elem_of_nil.
  - cbn [foldl].
    destruct (store !! x) as [v|] eqn:Hx.
    + assert (assign name (store, refs) x
              = (<[x := set_cluster name v]> store, refs ++ [x])) as ->
        by (unfold assign; simpl; by rewrite Hx).
      destruct (IH (<[x := set_cluster name v]> store) (refs ++ [x]))
        as [Hrefs Hstore].
      split.
      * rewrite Hrefs, <-app_assoc. f_equal.
        rewrite filter_cons_True by (by rewrite Hx). simpl. f_equal.
        apply list_filter_iff. intros k.
        destruct (decide (k = x)) as [->|Hk].
        -- rewrite lookup_insert_eq, Hx. by split; eauto.
        -- by rewrite lookup_insert_ne.
      * intros vid. rewrite Hstore.
        destruct (decide (vid = x)) as [->|Hk].
        -- rewrite lookup_insert_eq, Hx.
           rewrite (bool_decide_eq_true_2 (x ∈ x :: ids))
             by apply list_elem_of_here.
           by case_bool_decide.
        -- rewrite lookup_insert_ne by done.
           apply (f_equal (λ b : bool,
                    if b then set_cluster name <$> store !! vid
                    else store !! vid)).
           apply bool_decide_ext. rewrite elem_of_cons. tauto.
    + assert (assign name (store, refs) x = (store, refs)) as ->
        by (unfold assign; simpl; by rewrite Hx).
      destruct (IH store refs) as [Hrefs Hstore]. split.
      * rewrite Hrefs. f_equal.
        by rewrite filter_cons_False by (rewrite Hx; by intros [??]).
      * intros vid. rewrite Hstore.
        destruct (decide (vid = x)) as [->|Hk].
        -- rewrite Hx. by repeat case_bool_decide.
        -- apply (f_equal (λ b : bool,
                    if b then set_cluster name <$> store !! vid
                    else store !! vid)).
           apply bool_decide_ext. rewrite elem_of_cons. tauto.
Qed.

Lemma elem_of_dict_set {A} (k k' : string) (x x' : A)
    (d : list (string * A)) :
  (k', x') ∈ dict_set k x d → (k', x') = (k, x) ∨ (k', x') ∈ d.
Proof.
  induction d as [|[k0 x0] d IH]; simpl.
  - intros ->%list_elem_of_singleton. by left.
  - case_bool_decide; rewrite !elem_of_cons; [tauto|].
    intros [?|?]; [tauto|]. destruct IH; auto.
Qed.

Lemma cluster_loop response store
    (cl : list (string * list string)) :
  (∀ vid,
     (foldl cluster_step (store, cl) response).1 !! vid
     = relabel response vid <$> store !! vid)
  ∧ (∀ name refs,
       (name, refs) ∈ (foldl cluster_step (store, cl) response).2 →
       (name, refs) ∈ cl
       ∨ (refs ≠ []
          ∧ ∃ ids, (name, ids) ∈ response
                   ∧ refs = filter (λ vid, is_Some (store !! vid)) ids)).
Proof.
  revert store cl.
  induction response as [|[name0 ids0] response IH]; intros store cl.
  - split; [|by auto]. intros vid. unfold relabel. simpl.
    by destruct (store !! vid).
  - cbn [foldl].
    destruct (assign_loop name0 ids0 store []) as [Hrefs Hstore].
    assert (cluster_step (store, cl) (name0, ids0)
            = ((foldl (assign name0) (store, []) ids0).1,
               match (foldl (assign name0) (store, []) ids0).2 with
               | [] => cl
               | _ :: _ =>
                   dict_set name0
                     (foldl (assign name0) (store, []) ids0).2 cl
               end)) as ->.
    { unfold cluster_step. simpl. by destruct (foldl _ _ _) as [? []]. }
    destruct (foldl (assign name0) (store, []) ids0) as [store1 refs1].
    simpl in Hrefs, Hstore. cbn [fst snd].
    set (cl1 := match refs1 with
                | [] => cl
                | _ :: _ => dict_set name0 refs1 cl
                end).
    destruct (IH store1 cl1) as [IHstore IHrefs].
    assert (∀ k, is_Some (store1 !! k) ↔ is_Some (store !! k)) as Hdom.
    { intros k. rewrite Hstore. case_bool_decide; [|done].
      by rewrite fmap_is_Some. }
    split.
    + intros vid. rewrite IHstore, Hstore. unfold relabel. simpl.
      destruct (last_cluster response vid) as [n|];
        case_bool_decide; by destruct (store !! vid).
    + intros name refs Hin.
      destruct (IHrefs name refs Hin) as [Hcl1|(Hne & ids & Hids & ->)].
      * assert ((name, refs) ∈ cl
                ∨ ((name, refs) = (name0, refs1) ∧ refs1 ≠ [])) as [?|[Heq ?]].
        { unfold cl1 in Hcl1. destruct refs1 as [|r refs1]; [by left|].
          apply elem_of_dict_set in Hcl1 as [?|?]; [by right|by left]. }
        -- by left.
        -- simplify_eq. right. split; [done|]. exists ids0.
           split; [apply list_elem_of_here|done].
      * assert (filter (λ vid, is_Some (store1 !! vid)) ids
                = filter (λ vid, is_Some (store !! vid)) ids) as Hf
          by (by apply list_filter_iff).
        right. rewrite Hf in Hne |- *. split; [done|].
        exists ids. split; [by apply list_elem_of_further|done].
Qed.

Lemma last_cluster_Some response vid name :
  last_cluster response vid = Some name →
  ∃ before ids after,
    response = before ++ (name, ids) :: after
    ∧ vid ∈ ids ∧ Forall (λ item, vid ∉ item.2) after.
Proof.
  induction response as [|[n ids] response IH]; [done|]. simpl.
  destruct (last_cluster response vid) as [n'|] eqn:Hlast.
  - intros [= <-]. destruct (IH eq_refl) as (b & i & a & -> & ? & ?).
    by exists ((n, ids) :: b), i, a.
  - case_bool_decide as Hin; [|done]. intros [= <-].
    exists [], ids, response. split_and!; [done|done|].
    clear IH Hin. induction response as [|[n' ids'] response IH];
      [constructor|].
    simpl in Hlast. destruct (last_cluster response vid); [done|].
    case_bool_decide; [done|]. constructor; [done|]. by apply IH.
Qed.

Lemma last_cluster_None response vid :
  last_cluster response vid = None →
  ∀ name ids, (name, ids) ∈ response → vid ∉ ids.
Proof.
  induction response as [|[n ids0] response IH]; simpl.
  - intros _ name ids []%elem_of_nil.
  - destruct (last_cluster response vid); [done|].
    case_bool_decide; [done|]. intros _ name ids.
    rewrite elem_of_cons. intros [[= -> ->]|?]; [done|]. by eapply IH.
Qed.

(** X27: what [discover] returns counts all search results in [total_found],
    clustered or not.  Every cluster is non-empty and bears a name of the
    response; every video in it is one of the search results, changed at
    most in its [cluster] field, and its identifier is one the response
    lists under that name: identifiers the search did not return are
    dropped.  Nothing is decoded for an empty search. *)
Theorem discover_clusters_search_results
    (decode : string → list DiscoveredVideo
              → result (list (string * list string)))
    (topic : string) (raw_results : list DiscoveredVideo)
    (r : DiscoveryResult) :
  discover decode topic raw_results = Ok r →
  discovery.topic r = topic
  ∧ total_found r = length raw_results
  ∧ (raw_results = [] → clusters r = [])
  ∧ ∀ name vs,
      (name, vs) ∈ clusters r →
      vs ≠ []
      ∧ ∃ response ids,
          decode topic raw_results = Ok response
          ∧ (name, ids) ∈ response
          ∧ ∀ v, v ∈ vs →
                 video_id v ∈ ids
                 ∧ ∃ v0, v0 ∈ raw_results ∧ v = set_cluster (cluster v) v0.
Proof.
  unfold discover. destruct raw_results as [|v1 raw].
  { intros [= <-]. simpl. split_and!; [done..|].
    by intros name vs []%elem_of_nil. }
  destruct (decode topic (v1 :: raw)) as [response|e]; [|done].
  intros [= <-]. unfold cluster_videos.
  destruct (cluster_loop response (by_id (v1 :: raw)) []) as [Hstore Hrefs].
  destruct (foldl cluster_step (by_id (v1 :: raw), []) response)
    as [store cl].
  simpl in *. split_and!; [done..|].
  intros name vs ((name' & refs) & [= -> ->] & Hin)%list_elem_of_fmap.
  simpl in *.
  destruct (Hrefs _ _ Hin) as [[]%elem_of_nil|(Hne & ids & Hids & ->)].
  assert (∀ v, v ∈ deref store
                     (filter (λ vid, is_Some (by_id (v1 :: raw) !! vid)) ids) →
               video_id v ∈ ids
               ∧ ∃ v0, v0 ∈ v1 :: raw ∧ v = set_cluster (cluster v) v0)
    as Hvs.
  { intros v (vid & [[v0 Hv0] Hvid]%list_elem_of_filter & Hv)%list_elem_of_omap.
    rewrite Hstore, Hv0 in Hv. simpl in Hv. simplify_eq.
    destruct (by_id_lookup _ _ _ Hv0) as [Hraw <-].
    unfold relabel. destruct (last_cluster response (video_id v0)).
    - split; [done|]. by exists v0.
    - split; [done|]. exists v0. split; [done|]. by destruct v0. }
  split.
  - destruct (filter _ ids) as [|vid refs] eqn:Hf; [done|].
    assert (vid ∈ filter (λ vid, is_Some (by_id (v1 :: raw) !! vid)) ids)
      as [[v0 Hv0] _]%list_elem_of_filter
      by (rewrite Hf; apply list_elem_of_here).
    unfold deref. simpl. by rewrite Hstore, Hv0.
  - exists response, ids. split_and!; [done|done|]. exact Hvs.
Qed.

(** X28: the videos of the clusters are shared objects: listing an identifier
    under a name overwrites the [cluster] field of the one object.  So a
    video's [cluster] is the name under which the response lists it last,
    in every cluster that holds it; it is the name of the cluster that
    holds it when the response lists no identifier under two names. *)
Theorem discover_cluster_field_is_last_name
    (decode : string → list DiscoveredVideo
              → result (list (string * list string)))
    (topic : string) (raw_results : list DiscoveredVideo)
    (response : list (string * list string)) (r : DiscoveryResult)
    (name : string) (vs : list DiscoveredVideo) (v : DiscoveredVideo) :
  decode topic raw_results = Ok response →
  discover decode topic raw_results = Ok r →
  (name, vs) ∈ clusters r → v ∈ vs →
  (∃ before ids after,
     response = before ++ (cluster v, ids) :: after
     ∧ video_id v ∈ ids
     ∧ Forall (λ item, video_id v ∉ item.2) after)
  ∧ ((∀ n1 ids1 n2 ids2 vid,
        (n1, ids1) ∈ response → (n2, ids2) ∈ response →
        vid ∈ ids1 → vid ∈ ids2 → n1 = n2) →
     cluster v = name).
Proof.
  intros Hdecode. unfold discover. destruct raw_results as [|v1 raw].
  { intros [= <-]. by intros []%elem_of_nil. }
  rewrite Hdecode. intros [= <-]. unfold cluster_videos.
  destruct (cluster_loop response (by_id (v1 :: raw)) []) as [Hstore Hrefs].
  destruct (foldl cluster_step (by_id (v1 :: raw), []) response)
    as [store cl].
  simpl in *.
  intros ((name' & refs) & [= -> ->] & Hin)%list_elem_of_fmap. simpl in *.
  destruct (Hrefs _ _ Hin) as [[]%elem_of_nil|(Hne & ids & Hids & ->)].
  intros (vid & [[v0 Hv0] Hvid]%list_elem_of_filter & Hv)%list_elem_of_omap.
  rewrite Hstore, Hv0 in Hv. simpl in Hv. simplify_eq.
  destruct (by_id_lookup _ _ _ Hv0) as [Hraw <-].
  unfold relabel.
  destruct (last_cluster response (video_id v0)) as [n|] eqn:Hlast.
  - simpl. destruct (last_cluster_Some _ _ _ Hlast)
      as (before & ids' & after & -> & Hin' & Hafter).
    split; [by exists before, ids', after|].
    intros Hone. symmetry. eapply (Hone name' ids n ids'); [done| |done..].
    rewrite elem_of_app, elem_of_cons. auto.
  - by destruct (last_cluster_None _ _ Hlast _ _ Hids).
Qed.

End discovery_properties.

(** * Subtitles: from json3 events to indexed fragments *)

Section subtitles.
Import YouTubeExtractor chromadb ChromaVectorStore.

Lemma lstrip_head (s r : string) (c : ascii) :
  Py.lstrip s = String c r → Py.is_space c = false.
Proof.
  induction s as [|d s IH]; simpl; [done|].
  destruct (Py.is_space d) eqn:Hd; [done|]. by intros [= <- _].
Qed.

Lemma lstrip_nonspace (c : ascii) (s : string) :
  Py.is_space c = false → Py.lstrip (String c s) = String c s.
Proof. intros Hc. simpl. by rewrite Hc. Qed.

Lemma rstrip_nonspace (c : ascii) (s : string) :
  Py.is_space c = false → Py.rstrip (String c s) = String c (Py.rstrip s).
Proof. intros Hc. simpl. rewrite Hc. by destruct (Py.rstrip s). Qed.

Lemma rstrip_idemp (s : string) : Py.rstrip (Py.rstrip s) = Py.rstrip s.
Proof.
  induction s as [|c s IH]; [done|]. cbn [Py.rstrip].
  destruct (Py.rstrip s) as [|d r] eqn:Hr.
  - destruct (Py.is_space c) eqn:Hc; [done|]. simpl. by rewrite Hc.
  - change (Py.rstrip (String c (String d r)))
      with (match Py.rstrip (String d r) with
            | EmptyString =>
                if Py.is_space c then EmptyString else String c EmptyString
            | r' => String c r'
            end).
    by rewrite IH.
Qed.

(** A stripped text is empty or begins with a character that is no
    space. *)
Lemma strip_head (s r : string) (c : ascii) :
  Py.strip s = String c r → Py.is_space c = false.
Proof.
  unfold Py.strip. destruct (Py.lstrip s) as [|d l] eqn:Hl; [done|].
  rewrite (rstrip_nonspace d l (lstrip_head _ _ _ Hl)).
  intros [= <- _]. by eapply lstrip_head.
Qed.

Lemma strip_idemp (s : string) : Py.strip (Py.strip s) = Py.strip s.
Proof.
  destruct (Py.strip s) as [|c r] eqn:Hs; [done|].
  unfold Py.strip. rewrite (lstrip_nonspace c r (strip_head _ _ _ Hs)).
  rewrite <-Hs. unfold Py.strip. apply rstrip_idemp.
Qed.

(** X29: [_parse_json3] keeps the order of the events and yields only
    segments whose text is non-empty and already stripped.  The test of
    the text against a lone line feed never decides: the event is kept or
    dropped by the emptiness of the stripped text alone. *)
Theorem parse_json3_texts_are_stripped (events : list Event) :
  (∀ seg, seg ∈ _parse_json3 events →
          seg_text seg ≠ "" ∧ Py.strip (seg_text seg) = seg_text seg)
  ∧ (∀ ss, event_text ss ≠ Py.newline)
  ∧ (∀ event, is_Some (parse_event event) ↔
              ∃ ss, segs event = Some ss ∧ event_text ss ≠ "")
  ∧ seg_text <$> _parse_json3 events
    = filter (λ text, text ≠ "")
        ((λ event, event_text (default [] (segs event))) <$> events).
Proof.
  assert (∀ ss, event_text ss ≠ Py.newline) as Hnl.
  { intros ss Hs. by apply strip_head in Hs. }
  assert (∀ event, is_Some (parse_event event) ↔
                   ∃ ss, segs event = Some ss ∧ event_text ss ≠ "")
    as Hkeep.
  { intros event. unfold parse_event.
    destruct (segs event) as [[|s ss]|] eqn:Hsegs.
    - split; [by intros [??]|]. by intros (ss & [= <-] & Hne).
    - rewrite (bool_decide_eq_false_2 (event_text (s :: ss) = Py.newline))
        by apply Hnl.
      rewrite orb_false_r. case_bool_decide as He.
      + split; [by intros [??]|]. intros (ss' & [= <-] & Hne). done.
      + split; [|by eauto]. intros _. by exists (s :: ss).
    - split; [by intros [??]|]. by intros (ss & [=] & _). }
  split_and!; [|done|done|].
  - intros seg (event & _ & Hev)%list_elem_of_omap.
    unfold parse_event in Hev.
    destruct (segs event) as [[|s ss]|]; [done| |done].
    destruct (bool_decide (event_text (s :: ss) = "")) eqn:He; [done|].
    apply bool_decide_eq_false in He.
    destruct (bool_decide (event_text (s :: ss) = Py.newline)); [done|].
    simpl in Hev. simplify_eq. simpl. split; [done|apply strip_idemp].
  - unfold _parse_json3.
    induction events as [|event events IH]; [done|]. cbn [omap list_omap fmap list_fmap].
    pose proof (Hkeep event) as Hk. unfold parse_event in Hk |- *.
    destruct (segs event) as [[|s ss]|] eqn:Hsegs; simpl.
    + rewrite filter_cons_False by (intros Hne; by apply Hne). exact IH.
    + destruct (bool_decide (event_text (s :: ss) = "")) eqn:He.
      * apply bool_decide_eq_true in He. simpl.
        rewrite filter_cons_False by (intros Hne; by apply Hne). exact IH.
      * apply bool_decide_eq_false in He.
        rewrite (bool_decide_eq_false_2
                   (event_text (s :: ss) = Py.newline)) by apply Hnl.
        simpl. rewrite filter_cons_True by done. by f_equal.
    + rewrite filter_cons_False by (intros Hne; by apply Hne). exact IH.
Qed.

(** X30: a transcript that [_parse_json3] produced loses nothing in
    [index_video]: with the engine's ceiling at or above [_BATCH_SIZE]
    every segment is indexed, none is skipped as blank, and the stored
    document of each is its text as parsed. *)
Theorem parsed_transcript_is_indexed_whole (vid : string)
    (events : list Event) (c : Collection) :
  _parse_json3 events ≠ [] → _BATCH_SIZE ≤ max_batch_size c →
  well_keyed c →
  (index_video vid (_parse_json3 events) c).2
  = Ok (length (_parse_json3 events))
  ∧ ∀ i seg,
      _parse_json3 events !! i = Some seg →
      records (index_video vid (_parse_json3 events) c).1
        !! fragment_id vid i
      = Some (seg_text seg, metadata vid (i, seg)).
Proof.
  intros Hne Hmax Hwk.
  assert (∀ seg, seg ∈ _parse_json3 events →
                 seg_text seg ≠ "" ∧ Py.strip (seg_text seg) = seg_text seg)
    as Hclean.
  { intros seg (event & _ & Hev)%list_elem_of_omap.
    unfold parse_event in Hev.
    destruct (segs event) as [[|s ss]|]; [done| |done].
    destruct (bool_decide (event_text (s :: ss) = "")) eqn:He; [done|].
    apply bool_decide_eq_false in He.
    destruct (bool_decide (event_text (s :: ss) = Py.newline)); [done|].
    simpl in Hev. simplify_eq. simpl. split; [done|apply strip_idemp]. }
  rewrite (index_video_spec vid _ c Hne Hmax). cbn [fst snd]. split.
  - f_equal. apply kept_all. intros seg Hin.
    destruct (Hclean seg Hin) as [Hn ->]. done.
  - intros i seg Hseg. unfold set_records. cbn [records].
    destruct (Hclean seg) as [Hn Hs]; [by eapply list_elem_of_lookup_2|].
    apply lookup_union_Some_raw. right. split.
    + apply eq_None_not_Some. intros [r [Hr Hmeta]%map_lookup_filter_Some].
      pose proof (Hwk _ _ Hr) as Hkey. simpl in Hkey, Hmeta.
      by apply fragment_id_inj in Hkey as [? _].
    + apply lookup_entries. exists i, seg. by rewrite Hs.
Qed.

End subtitles.

(** * Further examples on the sample library *)

Section further_examples.
Import SQLiteVideoRepository chromadb ChromaVectorStore.

#[local] Abbreviation service_on t :=
  ({| _repo := t; _vectorstore := Some Sample.collection; calls := [] |}
     : @Service Collection).

(** D is not in the library; saved, it reads back whole and is the
    fourth row. *)
Lemma save_get_round_trip_witness :
  Sample.library !! "2" = None
  ∧ get "2" (save Sample.D Sample.library) = Some Sample.D
  ∧ size (save Sample.D Sample.library) = 4.
Proof.
  split; [reflexivity|].
  destruct (save_get_round_trip Sample.D Sample.library eq_refl)
    as (Hget & _ & Hsize & _).
  split; [exact Hget|exact Hsize].
Defined.

(** Deleting an identifier that is not stored changes nothing, and
    deleting D after saving it gives the library back. *)
Lemma delete_removes_only_that_row_witness :
  Sample.library !! "2" = None
  ∧ SQLiteVideoRepository.delete "2" Sample.library = Sample.library
  ∧ SQLiteVideoRepository.delete "2" (save Sample.D Sample.library)
    = Sample.library.
Proof.
  destruct (delete_removes_only_that_row "2" Sample.library)
    as (_ & _ & _ & _ & Hno & Hrt).
  split_and!;
    [reflexivity|exact (Hno eq_refl)|exact (Hrt Sample.D eq_refl eq_refl)].
Defined.

(** The newest entity of the listing is C without its transcript; [get]
    has the rest. *)
Lemma list_all_metadata_only_witness :
  list_all Sample.library !! 0 = Some (_row_to_video "ccccccccccc"
                                         (excluded Sample.C) false)
  ∧ transcript (_row_to_video "ccccccccccc" (excluded Sample.C) false) = []
  ∧ get "ccccccccccc" Sample.library = Some Sample.C.
Proof.
  assert (list_all Sample.library !! 0
          = Some (_row_to_video "ccccccccccc" (excluded Sample.C) false))
    as Hm by (by vm_compute).
  destruct (list_all_metadata_only Sample.library _
              (list_elem_of_lookup_2 _ _ _ Hm))
    as (Htr & _ & v & Hget & _).
  split_and!; [exact Hm|exact Htr|]. by vm_compute.
Defined.

(** Indexing B leaves the fragment of A where it was. *)
Lemma index_video_keeps_other_videos_witness :
  "aaaaaaaaaaa" ≠ "bbbbbbbbbbb"
  ∧ owned_by "aaaaaaaaaaa"
      (records (index_video "bbbbbbbbbbb" [Sample.segment "new"]
                  Sample.indexed_A).1)
    = owned_by "aaaaaaaaaaa" (records Sample.indexed_A).
Proof.
  assert ("aaaaaaaaaaa" ≠ "bbbbbbbbbbb") as Hne by discriminate.
  split; [exact Hne|].
  exact (index_video_keeps_other_videos "bbbbbbbbbbb" "aaaaaaaaaaa"
           [Sample.segment "new"] Sample.indexed_A Hne).
Defined.

(** After A is indexed again, the fragment under its second id is the
    second of the new segments. *)
Lemma index_video_leaves_no_stale_fragment_witness :
  let segments := [Sample.segment "hello"; Sample.segment " world "] in
  owned_by "aaaaaaaaaaa"
    (records (index_video "aaaaaaaaaaa" segments Sample.indexed_A).1)
    !! "aaaaaaaaaaa_1"
  = Some ("world", metadata "aaaaaaaaaaa" (1, Sample.segment " world "))
  ∧ ∃ i seg,
      segments !! i = Some seg
      ∧ "aaaaaaaaaaa_1" = fragment_id "aaaaaaaaaaa" i
      ∧ ("world", metadata "aaaaaaaaaaa" (1, Sample.segment " world "))
        = (Py.strip (seg_text seg), metadata "aaaaaaaaaaa" (i, seg)).
Proof.
  intros segments.
  assert (owned_by "aaaaaaaaaaa"
            (records (index_video "aaaaaaaaaaa" segments
                        Sample.indexed_A).1) !! "aaaaaaaaaaa_1"
          = Some ("world",
                  metadata "aaaaaaaaaaa" (1, Sample.segment " world ")))
    as Hr by (by vm_compute).
  split; [exact Hr|].
  assert (segments ≠ []) as Hne by discriminate.
  exact (index_video_leaves_no_stale_fragment "aaaaaaaaaaa" segments
           Sample.indexed_A _ _ Hne Hr).
Defined.

(** Two blank segments purge the fragment of A and index nothing, on a
    collection whose engine would take one record at most. *)
Lemma index_video_blank_list_purges_witness :
  let segments := [Sample.segment "  "; Sample.segment ""] in
  let c := set_records (records Sample.indexed_A) Sample.narrow in
  size (owned_by "aaaaaaaaaaa" (records c)) = 1
  ∧ (index_video "aaaaaaaaaaa" segments c).2 = Ok 0
  ∧ owned_by "aaaaaaaaaaa"
      (records (index_video "aaaaaaaaaaa" segments c).1) = ∅.
Proof.
  intros segments c.
  assert (segments ≠ []) as Hne by discriminate.
  assert (∀ seg, seg ∈ segments → Py.strip (seg_text seg) = "") as Hblank.
  { intros seg Hin. unfold segments in Hin.
    apply elem_of_cons in Hin as [->|Hin]; [reflexivity|].
    apply elem_of_cons in Hin as [->|Hin]; [reflexivity|].
    by apply elem_of_nil in Hin. }
  destruct (index_video_blank_list_purges "aaaaaaaaaaa" segments c
              Hne Hblank) as [Hres Hgone].
  split_and!; [by vm_compute| |exact Hgone].
  by rewrite Hres.
Defined.

(** After indexing A and B and purging A, the one record left is B's,
    under B's id. *)
Lemma replay_invariant_witness :
  let history := [IndexVideo "aaaaaaaaaaa" [Sample.segment "hello"];
                  IndexVideo "bbbbbbbbbbb" [Sample.segment "there"];
                  DeleteVideo "aaaaaaaaaaa"] in
  records (replay history Sample.collection) !! "bbbbbbbbbbb_0"
  = Some ("there", metadata "bbbbbbbbbbb" (0, Sample.segment "there"))
  ∧ "bbbbbbbbbbb_0" = fragment_id "bbbbbbbbbbb" 0.
Proof.
  intros history.
  assert (records (replay history Sample.collection) !! "bbbbbbbbbbb_0"
          = Some ("there",
                  metadata "bbbbbbbbbbb" (0, Sample.segment "there")))
    as Hr by (by vm_compute).
  split; [exact Hr|].
  exact (proj1 (replay_invariant history 500 true _ _ Hr)).
Defined.


(** With A alone in the library the empty query resolves to A; in the
    sample library it is ambiguous. *)
Lemma resolve_video_empty_query_witness :
  save Sample.A ∅ !! "" = None
  ∧ (resolve_video "" (service_on (save Sample.A ∅))).2
    = Ok (Some Sample.A)
  ∧ ∃ msg, (resolve_video "" (service_on Sample.library)).2
           = Raise (AmbiguousVideoError msg).
Proof.
  assert (save Sample.A ∅ !! "" = None) as Hq by (vm_compute; reflexivity).
  split; [exact Hq|]. split.
  - destruct (resolve_video_empty_query (service_on (save Sample.A ∅))
                Hq) as (_ & _ & Hone & _).
    destruct Hone as (m & Hm & Hres); [vm_compute; reflexivity|].
    vm_compute in Hm. injection Hm as <-.
    rewrite Hres. reflexivity.
  - destruct (resolve_video_empty_query (service_on Sample.library))
      as (_ & _ & _ & Hmany); [vm_compute; reflexivity|].
    apply Hmany. vm_compute. apply le_n_S, le_n_S, le_0_n.
Defined.

(** A superscript two passes [isdigit] and has no decimal value. *)
Lemma resolve_video_non_decimal_digits_witness :
  Py.isdigit (String "178" "") = true
  ∧ Py.all_chars Py.is_decimal (String "178" "") = false
  ∧ Sample.library !! String "178" "" = None
  ∧ ∃ msg,
      resolve_video (String "178" "") (service_on Sample.library)
      = (logged RepoListAll
           (logged (RepoGet (String "178" "")) (service_on Sample.library)),
         Raise (ValueError msg)).
Proof.
  split_and!; [reflexivity..|].
  exact (resolve_video_non_decimal_digits (String "178" "")
           (service_on Sample.library) eq_refl eq_refl eq_refl).
Defined.

(** A URL without identifier leaves the state as it is; a failing
    download leaves store and index as they are. *)
Lemma add_video_fails_before_save_witness :
  let s := service_on Sample.library in
  let add := add_video Sample.parse_video_id Sample.fetch_fails
               "2026-01-01T00:00:00+00:00" true Sample.classify in
  (add "nonsense" s).1 = s
  ∧ Sample.parse_video_id (Sample.url_of "ddddddddddd") = Ok "ddddddddddd"
  ∧ Sample.library !! "ddddddddddd" = None
  ∧ (add (Sample.url_of "ddddddddddd") s).2
    = Raise (ExtractionError "Failed to extract video info")
  ∧ _repo (add (Sample.url_of "ddddddddddd") s).1 = Sample.library.
Proof.
  intros s add.
  destruct (add_video_fails_before_save Sample.parse_video_id
              Sample.fetch_fails "2026-01-01T00:00:00+00:00" true
              Sample.classify "nonsense" s) as [Hparse _].
  destruct (add_video_fails_before_save Sample.parse_video_id
              Sample.fetch_fails "2026-01-01T00:00:00+00:00" true
              Sample.classify (Sample.url_of "ddddddddddd") s)
    as [_ Hfetch].
  destruct (Hfetch "ddddddddddd" _ eq_refl eq_refl eq_refl)
    as (s' & Hres & Hrepo & _).
  unfold add. rewrite (Hparse _ eq_refl), Hres.
  split_and!; [reflexivity|reflexivity|reflexivity|reflexivity|exact Hrepo].
Defined.

(** On an engine that takes one record per [add], indexing the two
    segments of the fresh video raises: the record stays, and adding the
    URL again is refused. *)
Lemma add_video_not_atomic_witness :
  let s : @Service Collection :=
    {| _repo := Sample.library; _vectorstore := Some Sample.narrow;
       calls := [] |} in
  let add := add_video Sample.parse_video_id Sample._fetch_info
               "2026-01-01T00:00:00+00:00" true Sample.classify in
  let url := Sample.url_of "ddddddddddd" in
  (add url s).2
  = Raise (ValueError "Batch size exceeds maximum batch size")
  ∧ exists_ "ddddddddddd" (_repo (add url s).1) = true
  ∧ ∃ msg, (add url (add url s).1).2 = Raise (VideoAlreadyExistsError msg).
Proof.
  intros s add url.
  destruct (add_video_not_atomic Sample.parse_video_id Sample._fetch_info
              "2026-01-01T00:00:00+00:00" true Sample.classify
              url "ddddddddddd" s
              {| info_title := "Fresh"; info_description := "";
                 info_channel := "New"; info_duration := 60;
                 info_thumbnail := ""; info_chapters := [];
                 info_transcript := [Sample.segment "hello";
                                     Sample.segment "world"] |}
              Sample.narrow
              (ValueError "Batch size exceeds maximum batch size"))
    as (s' & Hres & Hget & _ & _ & msg & Hagain);
    [reflexivity|reflexivity|reflexivity|reflexivity|discriminate
    |by vm_compute|].
  unfold add. rewrite Hres. cbn [fst snd]. split_and!.
  - reflexivity.
  - unfold get in Hget. unfold exists_.
    destruct (_repo s' !! "ddddddddddd"); [|discriminate].
    apply bool_decide_eq_true_2. by eexists.
  - exists msg. by rewrite Hagain.
Defined.


(** Adding a fresh video leaves the row of A as it was. *)
Lemma add_video_touches_one_row_witness :
  let s := service_on Sample.library in
  let url := Sample.url_of "ddddddddddd" in
  Sample.parse_video_id url ≠ Ok "aaaaaaaaaaa"
  ∧ _repo (add_video Sample.parse_video_id Sample._fetch_info
             "2026-01-01T00:00:00+00:00" true Sample.classify url s).1
      !! "aaaaaaaaaaa"
    = Some (excluded Sample.A).
Proof.
  intros s url.
  assert (Sample.parse_video_id url ≠ Ok "aaaaaaaaaaa") as Hne
    by discriminate.
  split; [exact Hne|].
  rewrite (add_video_touches_one_row Sample.parse_video_id
             Sample._fetch_info "2026-01-01T00:00:00+00:00" true
             Sample.classify url "aaaaaaaaaaa" s Hne).
  reflexivity.
Defined.

(** Adding a fresh video and removing it gives the sample library
    back. *)
Lemma add_video_then_remove_video_witness :
  let s := service_on Sample.library in
  let url := Sample.url_of "ddddddddddd" in
  Sample.parse_video_id url = Ok "ddddddddddd"
  ∧ Sample.library !! "ddddddddddd" = None
  ∧ _repo (remove_video "ddddddddddd"
             (add_video Sample.parse_video_id Sample._fetch_info
                "2026-01-01T00:00:00+00:00" true Sample.classify url s).1).1
    = Sample.library.
Proof.
  intros s url. split_and!; [reflexivity|reflexivity|].
  exact (add_video_then_remove_video Sample.parse_video_id
           Sample._fetch_info "2026-01-01T00:00:00+00:00" true
           Sample.classify url "ddddddddddd" s eq_refl eq_refl).
Defined.

(** Without an LLM, classifying an identifier that is not stored raises
    [VideoNotFoundError] and classifying A raises [RuntimeError]. *)
Lemma classify_video_precedence_witness :
  let s := service_on Sample.library in
  Sample.library !! "zzzzzzzzzzz" = None
  ∧ is_Some (Sample.library !! "aaaaaaaaaaa")
  ∧ (classify_video false Sample.classify "zzzzzzzzzzz" s).2
    = Raise (VideoNotFoundError "Video not found: zzzzzzzzzzz")
  ∧ (classify_video false Sample.classify "aaaaaaaaaaa" s).2
    = Raise (RuntimeError "Classification requires an LLM. Set an API key.").
Proof.
  intros s.
  assert (is_Some (Sample.library !! "aaaaaaaaaaa")) as Hin
    by (eexists; reflexivity).
  destruct (classify_video_precedence false Sample.classify
              "zzzzzzzzzzz" s) as [Habsent _].
  destruct (classify_video_precedence false Sample.classify
              "aaaaaaaaaaa" s) as [_ Hpresent].
  rewrite (Habsent eq_refl), (Hpresent Hin eq_refl).
  split_and!; [reflexivity|exact Hin|reflexivity|reflexivity].
Defined.

(** With a store that cannot be reached the purge of A raises; A is gone
    all the same, and a second removal raises [VideoNotFoundError] without
    reaching the store. *)
Lemma remove_video_twice_witness :
  let s : @Service () :=
    {| _repo := Sample.library; _vectorstore := Some (); calls := [] |} in
  let s1 := (@remove_video () Sample.unreachable "aaaaaaaaaaa" s).1 in
  is_Some (Sample.library !! "aaaaaaaaaaa")
  ∧ (@remove_video () Sample.unreachable "aaaaaaaaaaa" s).2
    = Raise (EngineError "unreachable")
  ∧ (@remove_video () Sample.unreachable "aaaaaaaaaaa" s1).2
    = Raise (VideoNotFoundError "Video not found: aaaaaaaaaaa")
  ∧ calls (@remove_video () Sample.unreachable "aaaaaaaaaaa" s1).1
    = calls s1 ++ [RepoExists "aaaaaaaaaaa"].
Proof.
  intros s s1.
  assert (is_Some (Sample.library !! "aaaaaaaaaaa")) as Hin
    by (eexists; reflexivity).
  destruct (@remove_video_twice () Sample.unreachable "aaaaaaaaaaa" s Hin)
    as [_ Hagain].
  fold s1 in Hagain. rewrite Hagain.
  split_and!; [exact Hin|reflexivity|reflexivity|reflexivity].
Defined.

(** Without an LLM, synthesis over an identifier that is not stored
    raises [RuntimeError] and leaves the state as it is. *)
Lemma report_methods_need_llm_witness :
  let s := service_on Sample.library in
  Sample.library !! "zzzzzzzzzzz" = None
  ∧ ∃ msg,
      synthesize false Sample.generate_multi Sample.to_html
        Sample.to_markdown ["zzzzzzzzzzz"] "topic" "html" s
      = (s, Raise (RuntimeError msg)).
Proof.
  intros s. split; [reflexivity|].
  destruct (report_methods_need_llm false (vector_search := Sample.searcher)
              Sample.generate_single Sample.generate_multi Sample.to_html
              Sample.to_markdown Sample.discover s "zzzzzzzzzzz" "q" "topic"
              "html" None None ["zzzzzzzzzzz"] eq_refl)
    as (_ & _ & Hsyn & _).
  exact Hsyn.
Defined.

(** Synthesis over C, A and C again reports on three entities in that
    order and renders markdown for the format [md]; with an unknown
    identifier after C it raises for it and has asked for C and for it
    only. *)
Lemma synthesize_reads_in_order_witness :
  let s := service_on Sample.library in
  let run := synthesize true Sample.generate_multi Sample.to_html
               Sample.to_markdown in
  (run ["ccccccccccc"; "aaaaaaaaaaa"; "ccccccccccc"] "topic" "md" s).2
  = Ok ({| report.title := "topic";
           report.summary := "ccccccccccc,aaaaaaaaaaa,ccccccccccc";
           report.sections := []; report.key_takeaways := [] |},
        "# topic")
  ∧ (run ["ccccccccccc"; "zzzzzzzzzzz"; "aaaaaaaaaaa"] "topic" "md" s).2
    = Raise (VideoNotFoundError "Video not found: zzzzzzzzzzz")
  ∧ calls (run ["ccccccccccc"; "zzzzzzzzzzz"; "aaaaaaaaaaa"]
             "topic" "md" s).1
    = [RepoGet "ccccccccccc"; RepoGet "zzzzzzzzzzz"].
Proof.
  intros s run.
  destruct (synthesize_reads_in_order true Sample.generate_multi
              Sample.to_html Sample.to_markdown s "topic" "md" eq_refl)
    as [Hmissing Hall].
  destruct (Hall ["ccccccccccc"; "aaaaaaaaaaa"; "ccccccccccc"])
    as [_ Hres].
  { repeat (apply Forall_cons; split; [eexists; reflexivity|]).
    apply Forall_nil_2. }
  pose proof (Hmissing ["ccccccccccc"] "zzzzzzzzzzz" ["aaaaaaaaaaa"]) as Hm.
  unfold run. rewrite Hres.
  change (["ccccccccccc"; "zzzzzzzzzzz"; "aaaaaaaaaaa"])
    with (["ccccccccccc"] ++ "zzzzzzzzzzz" :: ["aaaaaaaaaaa"]).
  rewrite Hm.
  - split_and!; reflexivity.
  - apply Forall_cons; split; [eexists; reflexivity|apply Forall_nil_2].
  - reflexivity.
Defined.

(** Three hits in A, B and A again give one report on A and B; a hit in
    a video that is not stored makes the report raise. *)
Lemma generate_report_from_query_by_video_witness :
  let s := service_on Sample.library in
  let hits := [Sample.hit "aaaaaaaaaaa" "x"; Sample.hit "bbbbbbbbbbb" "y";
               Sample.hit "aaaaaaaaaaa" "z"] in
  let orphan := [Sample.hit "aaaaaaaaaaa" "x";
                 Sample.hit "zzzzzzzzzzz" "y"] in
  Py.fromkeys (result_video_id <$> hits) = ["aaaaaaaaaaa"; "bbbbbbbbbbb"]
  ∧ (generate_report_from_query true
       (vector_search := Sample.fixed_hits hits) Sample.generate_multi
       Sample.to_html Sample.to_markdown "q" None "html" s).2
    = Ok ({| report.title := "q";
             report.summary := "aaaaaaaaaaa,bbbbbbbbbbb";
             report.sections := []; report.key_takeaways := [] |},
          "<h1>q</h1>")
  ∧ (generate_report_from_query true
       (vector_search := Sample.fixed_hits orphan) Sample.generate_multi
       Sample.to_html Sample.to_markdown "q" None "html" s).2
    = Raise (VideoNotFoundError "Video not found: zzzzzzzzzzz").
Proof.
  intros s hits orphan.
  destruct (generate_report_from_query_by_video true
              (vector_search := Sample.fixed_hits hits)
              Sample.generate_multi Sample.to_html Sample.to_markdown
              s Sample.collection "q" "html" None hits
              eq_refl eq_refl eq_refl ltac:(discriminate))
    as (_ & _ & _ & Hall & _).
  destruct (generate_report_from_query_by_video true
              (vector_search := Sample.fixed_hits orphan)
              Sample.generate_multi Sample.to_html Sample.to_markdown
              s Sample.collection "q" "html" None orphan
              eq_refl eq_refl eq_refl ltac:(discriminate))
    as (_ & _ & _ & _ & Hmissing).
  split; [reflexivity|].
  rewrite Hall.
  - rewrite (Hmissing ["aaaaaaaaaaa"] "zzzzzzzzzzz" []).
    + split; reflexivity.
    + reflexivity.
    + apply Forall_cons; split; [eexists; reflexivity|apply Forall_nil_2].
    + reflexivity.
  - repeat (apply Forall_cons; split; [eexists; reflexivity|]).
    apply Forall_nil_2.
Defined.

(** For A the frame is taken at the start of the first hit, even when
    that hit names another video; for an identifier that is not stored
    nothing is searched. *)
Lemma get_frame_by_query_takes_best_hit_witness :
  let s := service_on Sample.library in
  let hits := [Sample.hit "bbbbbbbbbbb" "x"; Sample.hit "aaaaaaaaaaa" "y"] in
  Sample.library !! "zzzzzzzzzzz" = None
  ∧ is_Some (Sample.library !! "aaaaaaaaaaa")
  ∧ (get_frame_by_query (vector_search := Sample.fixed_hits hits)
       Sample.extract_frame "zzzzzzzzzzz" "q" s).2
    = Raise (VideoNotFoundError "Video not found: zzzzzzzzzzz")
  ∧ (get_frame_by_query (vector_search := Sample.fixed_hits hits)
       Sample.extract_frame "aaaaaaaaaaa" "q" s).2
    = Ok {| match_path := "frames/aaaaaaaaaaa.jpg"; match_start := 7;
            match_end := 9; match_text := "x"; match_score := 0.5 |}.
Proof.
  intros s hits.
  assert (is_Some (Sample.library !! "aaaaaaaaaaa")) as Hin
    by (eexists; reflexivity).
  destruct (get_frame_by_query_takes_best_hit
              (vector_search := Sample.fixed_hits hits)
              Sample.extract_frame s "zzzzzzzzzzz" "q") as [Habsent _].
  destruct (get_frame_by_query_takes_best_hit
              (vector_search := Sample.fixed_hits hits)
              Sample.extract_frame s "aaaaaaaaaaa" "q") as [_ Hpresent].
  rewrite (Habsent eq_refl), (Hpresent Sample.collection Hin eq_refl).
  split_and!; [reflexivity|exact Hin|reflexivity|reflexivity].
Defined.

(** Of three search results the response places two; the identifier it
    made up is dropped, the cluster of unknown identifiers is left out,
    and [total_found] still counts three. *)
Lemma discover_clusters_search_results_witness :
  ∃ r,
    discovery.discover Sample.decode "topic" Sample.raw_results = Ok r
    ∧ discovery.total_found r = 3
    ∧ (λ item : string * list discovery.DiscoveredVideo,
         (item.1, discovery.video_id <$> item.2))
        <$> discovery.clusters r
      = [("Tutorials", ["x1"; "x2"]); ("Talks", ["x2"])].
Proof.
  eassert (discovery.discover Sample.decode "topic" Sample.raw_results
           = Ok _) as Hr by (vm_compute; reflexivity).
  destruct (discover_clusters_search_results Sample.decode "topic"
              Sample.raw_results _ Hr) as (_ & Htotal & _).
  eexists. split; [exact Hr|]. split; [exact Htotal|].
  reflexivity.
Defined.

(** [x2] is listed under [Tutorials] and then under [Talks]: in the
    cluster [Tutorials] its [cluster] field reads [Talks], the name the
    response lists it under last.  With a response that lists each
    identifier once the field is the cluster's name. *)
Lemma discover_cluster_field_is_last_name_witness :
  let x2 := discovery.set_cluster "Talks" (Sample.found "x2") in
  (∃ r,
     discovery.discover Sample.decode "topic" Sample.raw_results = Ok r
     ∧ discovery.clusters r !! 0
       = Some ("Tutorials",
               [discovery.set_cluster "Tutorials" (Sample.found "x1"); x2])
     ∧ ∃ before ids after,
         [("Tutorials", ["x1"; "x9"; "x2"]); ("Talks", ["x2"]);
          ("Unknown", ["zz"])]
         = before ++ (discovery.cluster x2, ids) :: after
         ∧ discovery.video_id x2 ∈ ids
         ∧ Forall (λ item, discovery.video_id x2 ∉ item.2) after)
  ∧ (∃ r,
       discovery.discover Sample.decode_once "topic" Sample.raw_results
       = Ok r
       ∧ discovery.clusters r !! 1 = Some ("Talks", [x2])
       ∧ discovery.cluster x2 = "Talks").
Proof.
  intros x2. split.
  - eassert (discovery.discover Sample.decode "topic" Sample.raw_results
             = Ok _) as Hr by (vm_compute; reflexivity).
    eexists. split; [exact Hr|]. split; [reflexivity|].
    refine (proj1 (discover_cluster_field_is_last_name Sample.decode
                     "topic" Sample.raw_results _ _ "Tutorials" _ x2
                     eq_refl Hr _ _)).
    + apply list_elem_of_here.
    + apply list_elem_of_further, list_elem_of_here.
  - eassert (discovery.discover Sample.decode_once "topic"
               Sample.raw_results = Ok _) as Hr
      by (vm_compute; reflexivity).
    eexists. split; [exact Hr|]. split; [reflexivity|].
    refine (proj2 (discover_cluster_field_is_last_name Sample.decode_once
                     "topic" Sample.raw_results _ _ "Talks" _ x2
                     eq_refl Hr _ _) _).
    + apply list_elem_of_further, list_elem_of_here.
    + apply list_elem_of_here.
    + intros n1 ids1 n2 ids2 vid H1 H2 Hv1 Hv2.
      repeat match goal with
             | H : _ ∈ _ :: _ |- _ => apply elem_of_cons in H as [H|H]
             | H : _ ∈ [] |- _ => by apply elem_of_nil in H
             | H : (_, _) = (_, _) |- _ => injection H as -> ->
             end; congruence.
Defined.

(** Of the four sample events the first and the last yield segments, at
    1.5 s and at 0 s; both are indexed with their parsed text. *)
Lemma parsed_transcript_is_indexed_whole_witness :
  let transcript := YouTubeExtractor._parse_json3 Sample.events in
  transcript
  = [ {| seg_start := 1.5; seg_duration := 2; seg_text := "hello world" |};
      {| seg_start := 0; seg_duration := 0.5; seg_text := "bye" |} ]
  ∧ (index_video "aaaaaaaaaaa" transcript Sample.collection).2 = Ok 2
  ∧ fst <$> records (index_video "aaaaaaaaaaa" transcript
                       Sample.collection).1 !! "aaaaaaaaaaa_1"
    = Some "bye".
Proof.
  intros transcript.
  assert (transcript
          = [ {| seg_start := 1.5; seg_duration := 2;
                 seg_text := "hello world" |};
              {| seg_start := 0; seg_duration := 0.5; seg_text := "bye" |} ])
    as Ht by (vm_compute; reflexivity).
  destruct (parsed_transcript_is_indexed_whole "aaaaaaaaaaa" Sample.events
              Sample.collection) as [Hres Hrec].
  - fold transcript. rewrite Ht. discriminate.
  - apply le_n.
  - apply map_Forall_empty.
  - fold transcript in Hres, Hrec. split; [exact Ht|]. split.
    + rewrite Hres, Ht. reflexivity.
    + assert (transcript !! 1
              = Some {| seg_start := 0; seg_duration := 0.5;
                        seg_text := "bye" |}) as H1
        by (rewrite Ht; reflexivity).
      apply Hrec in H1.
      change (fragment_id "aaaaaaaaaaa" 1) with "aaaaaaaaaaa_1" in H1.
      rewrite H1. reflexivity.
Defined.

End further_examples.
